(** * Low-Power-PIO: the application handlers of src/main.cpp

    A shallow embedding of [app_event_handler], [ble_data_handler] and
    [lora_data_handler], and of the two functions that start the
    application, [setup_app] and [init_app].  The handlers run on global variables and call
    into the WisBlock API; here the globals are the fields of [State],
    every handler is a function from [State] to an [Outcome], and every
    call that leaves the application (logging, GPIO, radio, delays, the AT
    command interpreter, the restart) is recorded in a trace of [Event]s.

    The event flag word [g_task_event_type] is also written by the timer
    and by the radio and BLE callbacks.  Those producers are part of the
    model: the field [isr] of the state says which bits they set while
    the next API calls are running. *)

From Stdlib Require Import ZArith List String Bool Lia QArith Qround.
From Stdlib Require Import Qabs Qpower Lqa.
From Stdlib Require DecimalString.
Import ListNotations.
Close Scope Q_scope.
Open Scope string_scope.
Open Scope list_scope.
Open Scope Z_scope.

Set Implicit Arguments.

(** ** What the build takes from outside main.cpp *)

(** The arithmetic of the target: [float batt_level_f] is a C [float],
    [batt_level_f / 1000.0] is computed in [double].  The handlers are
    written over any such arithmetic; [ieee_arith] below is the one of
    the target, IEEE 754. *)
Class FloatArith : Type := {
  float : Type;
  double : Type;
  float_of_int : Z -> float;          (* int to float, the [10] of [batt_level_f / 10] *)
  double_lit : Z -> double;           (* the literals [0.0] and [1000.0] *)
  float_of_double : double -> float;
  double_of_float : float -> double;
  fadd : float -> float -> float;
  fdiv : float -> float -> float;
  ddiv : double -> double -> double
}.

(** The constants of WisBlock-API-V2 that main.cpp names, and the
    fixed-point conversion of the Cayenne LPP encoder. *)
Class WisBlockApi {FA : FloatArith} : Type := {
  STATUS : Z;        N_STATUS : Z;
  BLE_DATA : Z;      N_BLE_DATA : Z;
  LORA_DATA : Z;     N_LORA_DATA : Z;
  LORA_TX_FIN : Z;   N_LORA_TX_FIN : Z;
  LORA_JOIN_FIN : Z; N_LORA_JOIN_FIN : Z;
  WB_IO2 : Z;
  LPP_CHANNEL_BATT : Z;
  LPP_VOLTAGE : Z;
  lpp_voltage_bytes : float -> list Z
}.

(** [lmh_error_status], as far as main.cpp distinguishes its values. *)
Inductive lmh_error_status : Type := LMH_SUCCESS | LMH_BUSY | LMH_ERROR.

(** The two values of [confirmed_msg_enabled]. *)
Inductive lmh_confirm : Type := LMH_UNCONFIRMED_MSG | LMH_CONFIRMED_MSG.

Definition lmh_confirm_eqb (a b : lmh_confirm) : bool :=
  match a, b with
  | LMH_UNCONFIRMED_MSG, LMH_UNCONFIRMED_MSG => true
  | LMH_CONFIRMED_MSG, LMH_CONFIRMED_MSG => true
  | _, _ => false
  end.

(** The fields of [g_lorawan_settings] that the handlers read. *)
Record s_lorawan_settings : Type := {
  lorawan_enable : bool;
  confirmed_msg_enabled : lmh_confirm
}.

(** ** Machine integers *)

Definition u8 (z : Z) : Z := z mod 256.
Definition u16 (z : Z) : Z := Z.land z 65535.

(** [(word & X) == X], the test every handler makes on the flag word. *)
Definition has (X word : Z) : bool := Z.land word X =? X.

(** ** The event kinds of the flag word *)

Inductive EventKind : Type :=
  EvStatus | EvJoinFin | EvLoraData | EvTxFin | EvBleData.


Section Masks.
Context {FA : FloatArith} {API : WisBlockApi}.

Definition mask (k : EventKind) : Z :=
  match k with
  | EvStatus => STATUS
  | EvJoinFin => LORA_JOIN_FIN
  | EvLoraData => LORA_DATA
  | EvTxFin => LORA_TX_FIN
  | EvBleData => BLE_DATA
  end.

Definition nmask (k : EventKind) : Z :=
  match k with
  | EvStatus => N_STATUS
  | EvJoinFin => N_LORA_JOIN_FIN
  | EvLoraData => N_LORA_DATA
  | EvTxFin => N_LORA_TX_FIN
  | EvBleData => N_BLE_DATA
  end.

(** What the handlers need of the masks: each [X] is a non-empty set of
    bits of the 16-bit word, [N_X] has none of them and has all the bits
    of the other kinds. *)
Class TaskEventsOk : Prop := {
  mask_range : forall k, 0 < mask k <= 65535;
  mask_clear : forall k, Z.land (mask k) (nmask k) = 0;
  mask_keep : forall k k', k <> k' -> Z.land (mask k') (nmask k) = mask k'
}.
End Masks.

(** ** The payload buffer *)

(** Modelled from the spec: the class [WisCayenne] (its [reset],
    [addVoltage], [getBuffer] and [getSize]) belongs to the API library.
    Section 3 has the buffer as an ordered sequence of (channel-id,
    type-tag, encoded-value) records with a maximum total byte capacity;
    section 4.2 has [reset] empty it and an add append one record if the
    remaining capacity suffices. *)
Record LppRecord : Type := {
  lpp_channel : Z;
  lpp_type : Z;
  lpp_data : list Z
}.

Record WisCayenne : Type := {
  maxsize : Z;
  records : list LppRecord
}.

Definition record_size (r : LppRecord) : Z := 2 + Z.of_nat (List.length (lpp_data r)).

Definition getSize (p : WisCayenne) : Z :=
  fold_right (fun r n => record_size r + n) 0 (records p).

Definition getBuffer (p : WisCayenne) : list Z :=
  flat_map (fun r => lpp_channel r :: lpp_type r :: lpp_data r) (records p).

Definition reset (p : WisCayenne) : WisCayenne :=
  {| maxsize := maxsize p; records := [] |}.

Definition addRecord (r : LppRecord) (p : WisCayenne) : WisCayenne :=
  if getSize p + record_size r <=? maxsize p
  then {| maxsize := maxsize p; records := records p ++ [r] |}
  else p.

Section Payload.
Context {FA : FloatArith} {API : WisBlockApi}.

Definition voltage_record (channel : Z) (value : float) : LppRecord :=
  {| lpp_channel := channel; lpp_type := LPP_VOLTAGE;
     lpp_data := lpp_voltage_bytes value |}.

Definition addVoltage (channel : Z) (value : float) (p : WisCayenne) : WisCayenne :=
  addRecord (voltage_record channel value) p.
End Payload.

(** ** Calls that leave the application *)

Inductive LogArg : Type :=
| ArgInt (z : Z)
| ArgStr (s : string)
| ArgChars (cs : list Z)
| ArgOverrun.   (* [%s] of an array that was left: no text is defined *)

Inductive Event {FA : FloatArith} : Type :=
| ELog (tag fmt : string) (args : list LogArg)    (* the PRINTF lines of MYLOG *)
| EBleLog (fmt : string) (args : list LogArg)     (* its copy on the BLE UART *)
| EDigitalWrite (pin : Z) (high : bool)
| ERead_batt (sample : float)
| ESend_lora_packet (buf : list Z) (size : Z) (port : Z) (result : lmh_error_status)
| ESend_p2p_packet (buf : list Z) (size : Z)
| EAt_serial_input (c : Z)
| EDelay (ms : Z)
| ELmh_getNwSkey
| ELmh_getAppSkey
| EApi_reset.

(** ** The globals *)

(** Globals owned by the API: the handlers only read them. *)
Record ApiGlobals : Type := {
  g_enable_ble : bool;
  g_ble_uart_is_connected : bool;
  g_lorawan_settings : s_lorawan_settings;
  g_lpwan_has_joined : bool;
  g_join_result : bool;
  g_rx_fin_result : bool;
  g_last_rssi : Z;
  g_last_snr : Z;
  g_rx_data_len : Z;
  g_rx_lora_data : list Z;
  LoRaMacDevAddr : Z;
  NwSkey : list Z;
  AppSkey : list Z
}.

Record State {FA : FloatArith} : Type := {
  g_task_event_type : Z;                 (* volatile uint16_t *)
  send_fail : Z;                         (* uint8_t *)
  payload : WisCayenne;
  api : ApiGlobals;
  ble_rx : list Z;                       (* bytes waiting in g_ble_uart *)
  batt : nat -> float;                   (* what the next calls of read_batt return *)
  lora_status : nat -> lmh_error_status; (* what the next calls of send_lora_packet return *)
  isr : nat -> Z                         (* bits the producers set during the next API calls *)
}.

Section Machine.
Context {FA : FloatArith} {API : WisBlockApi}.

Definition set_g_task_event_type (v : Z) (s : State) : State :=
  {| g_task_event_type := v; send_fail := send_fail s; payload := payload s;
     api := api s; ble_rx := ble_rx s; batt := batt s;
     lora_status := lora_status s; isr := isr s |}.

Definition set_send_fail (v : Z) (s : State) : State :=
  {| g_task_event_type := g_task_event_type s; send_fail := v; payload := payload s;
     api := api s; ble_rx := ble_rx s; batt := batt s;
     lora_status := lora_status s; isr := isr s |}.

Definition set_payload (v : WisCayenne) (s : State) : State :=
  {| g_task_event_type := g_task_event_type s; send_fail := send_fail s; payload := v;
     api := api s; ble_rx := ble_rx s; batt := batt s;
     lora_status := lora_status s; isr := isr s |}.

Definition set_ble_rx (v : list Z) (s : State) : State :=
  {| g_task_event_type := g_task_event_type s; send_fail := send_fail s;
     payload := payload s; api := api s; ble_rx := v; batt := batt s;
     lora_status := lora_status s; isr := isr s |}.

Definition set_batt (v : nat -> float) (s : State) : State :=
  {| g_task_event_type := g_task_event_type s; send_fail := send_fail s;
     payload := payload s; api := api s; ble_rx := ble_rx s; batt := v;
     lora_status := lora_status s; isr := isr s |}.

Definition set_lora_status (v : nat -> lmh_error_status) (s : State) : State :=
  {| g_task_event_type := g_task_event_type s; send_fail := send_fail s;
     payload := payload s; api := api s; ble_rx := ble_rx s; batt := batt s;
     lora_status := v; isr := isr s |}.

Definition set_isr (v : nat -> Z) (s : State) : State :=
  {| g_task_event_type := g_task_event_type s; send_fail := send_fail s;
     payload := payload s; api := api s; ble_rx := ble_rx s; batt := batt s;
     lora_status := lora_status s; isr := v |}.

Definition set_api (v : ApiGlobals) (s : State) : State :=
  {| g_task_event_type := g_task_event_type s; send_fail := send_fail s;
     payload := payload s; api := v; ble_rx := ble_rx s; batt := batt s;
     lora_status := lora_status s; isr := isr s |}.

Definition tl_stream {A : Type} (f : nat -> A) : nat -> A := fun n => f (S n).

(** While an API call runs, the producers may set bits of the flag
    word ([g_task_event_type |= X] in their callbacks). *)
Definition irq (s : State) : State :=
  set_isr (tl_stream (isr s))
    (set_g_task_event_type (u16 (Z.lor (g_task_event_type s) (isr s O))) s).

(** *** Outcomes and the handler monad *)

Inductive Outcome (A : Type) : Type :=
| Returned (a : A) (s : State) (t : list Event)
| Restarted (s : State) (t : list Event)  (* api_reset() does not return *)
| OutOfFuel.
Arguments Restarted {A} s t.
Arguments OutOfFuel {A}.

Definition M (A : Type) : Type := State -> Outcome A.

Definition ret {A : Type} (a : A) : M A := fun s => Returned a s [].

Definition prefix_trace {A : Type} (t1 : list Event) (o : Outcome A) : Outcome A :=
  match o with
  | Returned a s t2 => Returned a s (t1 ++ t2)
  | Restarted s t2 => Restarted s (t1 ++ t2)
  | OutOfFuel => OutOfFuel
  end.

Definition bind {A B : Type} (m : M A) (f : A -> M B) : M B :=
  fun s =>
    match m s with
    | Returned a s1 t1 => prefix_trace t1 (f a s1)
    | Restarted s1 t1 => Restarted s1 t1
    | OutOfFuel => OutOfFuel
    end.

Definition gets {A : Type} (f : State -> A) : M A := fun s => Returned (f s) s [].
Definition modify (f : State -> State) : M unit := fun s => Returned tt (f s) [].
Definition call (e : Event) : M unit := fun s => Returned tt (irq s) [e].
Definition restart (e : Event) : M unit := fun s => Restarted (irq s) [e].
Definition when (b : bool) (m : M unit) : M unit := if b then m else ret tt.

Definition final_state {A : Type} (o : Outcome A) : option State :=
  match o with
  | Returned _ s _ | Restarted s _ => Some s
  | OutOfFuel => None
  end.

Definition trace_of {A : Type} (o : Outcome A) : list Event :=
  match o with
  | Returned _ _ t | Restarted _ t => t
  | OutOfFuel => []
  end.

End Machine.

Arguments Restarted {FA A} s t.
Arguments OutOfFuel {FA A}.

Declare Scope handler_scope.
Delimit Scope handler_scope with handler.
Notation "x <- m ;; k" := (bind m (fun x => k))
  (at level 61, m at next level, right associativity) : handler_scope.
Notation "m ;; k" := (bind m (fun _ => k))
  (at level 61, right associativity) : handler_scope.
Open Scope handler_scope.

(** ** The API calls of main.cpp *)

Section Calls.
Context {FA : FloatArith} {API : WisBlockApi}.

(** MYLOG with MY_DEBUG = 1: the three PRINTF calls are one [ELog],
    and the two printf calls on the BLE UART, made only while a client
    is connected, are one [EBleLog]. *)
Definition MYLOG (tag fmt : string) (args : list LogArg) : M unit :=
  call (ELog tag fmt args) ;;
  connected <- gets (fun s => g_ble_uart_is_connected (api s)) ;;
  when connected (call (EBleLog fmt args)).

Definition digitalWrite (pin : Z) (high : bool) : M unit :=
  call (EDigitalWrite pin high).

Definition delay (ms : Z) : M unit := call (EDelay ms).

Definition read_batt : M float :=
  v <- gets (fun s => batt s O) ;;
  modify (fun s => set_batt (tl_stream (batt s)) s) ;;
  call (ERead_batt v) ;;
  ret v.

Definition send_lora_packet (buf : list Z) (size port : Z) : M lmh_error_status :=
  r <- gets (fun s => lora_status s O) ;;
  modify (fun s => set_lora_status (tl_stream (lora_status s)) s) ;;
  call (ESend_lora_packet buf size port r) ;;
  ret r.

Definition send_p2p_packet (buf : list Z) (size : Z) : M unit :=
  call (ESend_p2p_packet buf size).

Definition at_serial_input (c : Z) : M unit := call (EAt_serial_input c).

(** The state after the calls of one MYLOG. *)
Definition after_mylog (s : State) : State :=
  if g_ble_uart_is_connected (api s) then irq (irq s) else irq s.

(** [api_reset] restarts the MCU: the call is made, the handler stops
    there. *)
Definition api_reset : M unit := restart EApi_reset.

Definition lmh_getNwSkey : M (list Z) :=
  call ELmh_getNwSkey ;; gets (fun s => NwSkey (api s)).

Definition lmh_getAppSkey : M (list Z) :=
  call ELmh_getAppSkey ;; gets (fun s => AppSkey (api s)).

(** [g_ble_uart.available()] and [g_ble_uart.read()]: the receive FIFO.
    [read] on an empty FIFO returns -1. *)
Definition g_ble_uart_available : M Z :=
  gets (fun s => Z.of_nat (List.length (ble_rx s))).

Definition g_ble_uart_read : M Z :=
  rx <- gets ble_rx ;;
  match rx with
  | [] => ret (-1)
  | c :: rest => modify (set_ble_rx rest) ;; ret c
  end.

(** [g_task_event_type &= N_X] *)
Definition after_clear (N_X : Z) (s : State) : State :=
  set_g_task_event_type (u16 (Z.land (g_task_event_type s) N_X)) s.

Definition clear_event (N_X : Z) : M unit := modify (after_clear N_X).
End Calls.

(** ** The hex dump of a received packet *)

Definition hex_digit (n : Z) : Z := if n <? 10 then 48 + n else 55 + n.

(** [sprintf(p, "%02X ", b)] writes two digits, a blank and the NUL. *)
Definition sprintf_02X (b : Z) : list Z :=
  [hex_digit (u8 b / 16); hex_digit (u8 b mod 16); 32; 0].

(** Writing [cs] at index [i] of an array.  A byte that falls behind
    the array's end is a write outside the array: C does not define
    what follows, and the result is [None]. *)
Fixpoint poke (buf : list Z) (i : nat) (cs : list Z) : option (list Z) :=
  match buf with
  | [] => match cs with
          | [] => Some []
          | _ :: _ => None
          end
  | b :: buf' =>
      match i with
      | S i' => option_map (cons b) (poke buf' i' cs)
      | O => match cs with
             | [] => Some buf
             | c :: cs' => option_map (cons c) (poke buf' O cs')
             end
      end
  end.

(** The loop [for (idx = 0; idx < g_rx_data_len; idx++)] with its
    [uint8_t log_idx]; [None] when a [sprintf] has written outside
    [log_buff]. *)
Fixpoint hex_loop (n : nat) (idx log_idx : Z) (data log_buff : list Z)
  : option (list Z) :=
  match n with
  | O => Some log_buff
  | S n' =>
      match poke log_buff (Z.to_nat log_idx)
              (sprintf_02X (nth (Z.to_nat idx) data 0)) with
      | Some log_buff' => hex_loop n' (idx + 1) (u8 (log_idx + 3)) data log_buff'
      | None => None
      end
  end.

(** What [%s] prints of an array: the characters before its first NUL.
    With no NUL in the array the read goes on behind its end: [None]. *)
Fixpoint c_str (cs : list Z) : option (list Z) :=
  match cs with
  | [] => None
  | c :: cs' => if c =? 0 then Some [] else option_map (cons c) (c_str cs')
  end.

(** [char log_buff[g_rx_data_len * 3] = {0}], the loop, and the [%s]
    of the last MYLOG: the text, or [None] when the array was left. *)
Definition hex_dump (len : Z) (data : list Z) : option (list Z) :=
  match hex_loop (Z.to_nat len) 0 0 data (repeat 0 (Z.to_nat (len * 3))) with
  | Some log_buff => c_str log_buff
  | None => None
  end.

(** The argument of the [%s]. *)
Definition dump_arg (dump : option (list Z)) : LogArg :=
  match dump with
  | Some cs => ArgChars cs
  | None => ArgOverrun
  end.

Definition key_args (session_key : list Z) : list LogArg :=
  map (fun i => ArgInt (nth i session_key 0)) (seq 0 16).

(** ** The handlers *)

Section Handlers.
Context {FA : FloatArith} {API : WisBlockApi}.

(** [for (int readings = 0; readings < 10; readings++)
       batt_level_f += read_batt();] *)
Fixpoint read_batt_loop (readings : nat) (batt_level_f : float) : M float :=
  match readings with
  | O => ret batt_level_f
  | S readings' =>
      v <- read_batt ;;
      read_batt_loop readings' (fadd batt_level_f v)
  end.

(** The voltage handed to the encoder: [(batt_level_f / 10) / 1000.0]. *)
Definition batt_volts (batt_level_f : float) : float :=
  float_of_double
    (ddiv (double_of_float (fdiv batt_level_f (float_of_int 10))) (double_lit 1000)).

(** The block of [if ((g_task_event_type & STATUS) == STATUS)] clears
    the bit and then serves the event, in the three parts that its
    comments name. *)

(** Up to and with [payload.reset()]. *)
Definition status_prepare : M unit :=
  MYLOG "APP" "Timer wakeup" [] ;;
  digitalWrite WB_IO2 true ;;
  modify (fun s => set_payload (reset (payload s)) s).

(** "Get Battery status" *)
Definition status_battery : M unit :=
  batt_level_f <- read_batt_loop 10 (float_of_double (double_lit 0)) ;;
  modify (fun s =>
    set_payload (addVoltage LPP_CHANNEL_BATT (batt_volts batt_level_f) (payload s)) s).

(** The choice of the link, and the end of the block. *)
Definition status_transmit : M unit :=
  enable <- gets (fun s => lorawan_enable (g_lorawan_settings (api s))) ;;
  (if enable then
     joined <- gets (fun s => g_lpwan_has_joined (api s)) ;;
     if joined then
       buf <- gets (fun s => getBuffer (payload s)) ;;
       size <- gets (fun s => getSize (payload s)) ;;
       result <- send_lora_packet buf size 2 ;;
       match result with
       | LMH_SUCCESS => MYLOG "APP" "Packet enqueued" []
       | LMH_BUSY => MYLOG "APP" "LoRa transceiver is busy" []
       | LMH_ERROR => MYLOG "APP" "Packet error, too big to send with current DR" []
       end
     else
       MYLOG "APP" "Network not joined, skip sending" []
   else
     buf <- gets (fun s => getBuffer (payload s)) ;;
     size <- gets (fun s => getSize (payload s)) ;;
     send_p2p_packet buf size) ;;
  digitalWrite WB_IO2 false.

Definition status_body : M unit :=
  status_prepare ;;
  status_battery ;;
  status_transmit.

Definition status_event : M unit :=
  clear_event N_STATUS ;;
  status_body.

Definition app_event_handler : M unit :=
  flags <- gets g_task_event_type ;;
  when (has STATUS flags) status_event.

(** [while (g_ble_uart.available() > 0)] *)
Fixpoint ble_drain (fuel : nat) : M unit :=
  match fuel with
  | O => fun _ => OutOfFuel
  | S fuel' =>
      n <- g_ble_uart_available ;;
      if 0 <? n then
        c <- g_ble_uart_read ;;
        at_serial_input (u8 c) ;;
        delay 5 ;;
        ble_drain fuel'
      else ret tt
  end.

(** The block of [if ((g_task_event_type & BLE_DATA) == BLE_DATA)]
    logs, clears the bit and then forwards the bytes. *)
Definition ble_data_body (fuel : nat) : M unit :=
  ble_drain fuel ;;
  at_serial_input (u8 10).

Definition ble_data_event (fuel : nat) : M unit :=
  MYLOG "AT" "RECEIVED BLE" [] ;;
  clear_event N_BLE_DATA ;;
  ble_data_body fuel.

Definition ble_data_handler (fuel : nat) : M unit :=
  enabled <- gets (fun s => g_enable_ble (api s)) ;;
  when enabled
    (flags <- gets g_task_event_type ;;
     when (has BLE_DATA flags) (ble_data_event fuel)).

(** The block of [if ((g_task_event_type & LORA_JOIN_FIN) == LORA_JOIN_FIN)]:
    the bit is cleared, then the event is served. *)
Definition join_fin_body : M unit :=
  join_result <- gets (fun s => g_join_result (api s)) ;;
  if join_result then
    MYLOG "APP" "Successfully joined network" [] ;;
    session_key <- lmh_getNwSkey ;;
    MYLOG "APP" "NwSkey = %02X%02X%02X%02X%02X%02X%02X%02X%02X%02X%02X%02X%02X%02X%02X%02X"
      (key_args session_key) ;;
    session_key <- lmh_getAppSkey ;;
    MYLOG "APP" "AppSkey = %02X%02X%02X%02X%02X%02X%02X%02X%02X%02X%02X%02X%02X%02X%02X%02X"
      (key_args session_key) ;;
    addr <- gets (fun s => LoRaMacDevAddr (api s)) ;;
    MYLOG "APP" "DevAddr = %04LX" [ArgInt addr]
  else
    MYLOG "APP" "Join network failed" [].

Definition join_fin_event : M unit :=
  clear_event N_LORA_JOIN_FIN ;;
  join_fin_body.

(** The block of [if ((g_task_event_type & LORA_DATA) == LORA_DATA)].
    Where the dump leaves [log_buff] the last line is logged with its
    argument marked [ArgOverrun]: the model says nothing of the text. *)
Definition lora_data_body : M unit :=
  MYLOG "APP" "Received package over LoRa" [] ;;
  rssi <- gets (fun s => g_last_rssi (api s)) ;;
  snr <- gets (fun s => g_last_snr (api s)) ;;
  MYLOG "APP" "RSSI %d SNR %d" [ArgInt rssi; ArgInt snr] ;;
  len <- gets (fun s => g_rx_data_len (api s)) ;;
  data <- gets (fun s => g_rx_lora_data (api s)) ;;
  MYLOG "APP" "%s" [dump_arg (hex_dump len data)].

Definition lora_data_event : M unit :=
  clear_event N_LORA_DATA ;;
  lora_data_body.

(** The block of [if ((g_task_event_type & LORA_TX_FIN) == LORA_TX_FIN)]. *)
Definition tx_fin_body : M unit :=
  enable <- gets (fun s => lorawan_enable (g_lorawan_settings (api s))) ;;
  if enable then
    confirmed <- gets (fun s => confirmed_msg_enabled (g_lorawan_settings (api s))) ;;
    (if lmh_confirm_eqb confirmed LMH_UNCONFIRMED_MSG then
       MYLOG "APP" "LPWAN TX cycle finished" []
     else
       rx_fin_result <- gets (fun s => g_rx_fin_result (api s)) ;;
       MYLOG "APP" "LPWAN TX cycle %s"
         [ArgStr (if rx_fin_result then "finished ACK" else "failed NAK")]) ;;
    rx_fin_result <- gets (fun s => g_rx_fin_result (api s)) ;;
    when (negb rx_fin_result)
      (modify (fun s => set_send_fail (u8 (send_fail s + 1)) s) ;;
       fails <- gets send_fail ;;
       when (fails =? 10)
         (delay 100 ;;
          api_reset))
  else
    MYLOG "APP" "P2P TX finished" [].

Definition tx_fin_event : M unit :=
  clear_event N_LORA_TX_FIN ;;
  tx_fin_body.

(** The three tests of [lora_data_handler], in their order. *)
Definition lora_join_fin : M unit :=
  flags <- gets g_task_event_type ;;
  when (has LORA_JOIN_FIN flags) join_fin_event.

Definition lora_data : M unit :=
  flags <- gets g_task_event_type ;;
  when (has LORA_DATA flags) lora_data_event.

Definition lora_tx_fin : M unit :=
  flags <- gets g_task_event_type ;;
  when (has LORA_TX_FIN flags) tx_fin_event.

Definition lora_data_handler : M unit :=
  lora_join_fin ;;
  lora_data ;;
  lora_tx_fin.

(** What [lora_data_handler] does before its third test. *)
Definition lora_before_tx : M unit :=
  lora_join_fin ;;
  lora_data.
End Handlers.

(** ** Producers and event sequences *)


Section Producers.
Context {FA : FloatArith} {API : WisBlockApi}.



(** The producers leave the bits [X] alone. *)
Definition quiet (X : Z) (s : State) : Prop :=
  forall n, Z.land (isr s n) X = 0.








End Producers.

(** ** Reading traces *)

Section Traces.
Context {FA : FloatArith}.

Definition is_log (e : Event) : bool :=
  match e with ELog _ _ _ | EBleLog _ _ => true | _ => false end.
Definition is_api_reset (e : Event) : bool :=
  match e with EApi_reset => true | _ => false end.
Definition is_send_lora_packet (e : Event) : bool :=
  match e with ESend_lora_packet _ _ _ _ => true | _ => false end.
Definition is_send_p2p_packet (e : Event) : bool :=
  match e with ESend_p2p_packet _ _ => true | _ => false end.
Definition is_at_serial_input (e : Event) : bool :=
  match e with EAt_serial_input _ => true | _ => false end.

Definition count (p : Event -> bool) (t : list Event) : nat :=
  List.length (filter p t).

(** The samples that [read_batt] returned, in order. *)
Definition samples_of (t : list Event) : list float :=
  flat_map (fun e => match e with ERead_batt v => [v] | _ => [] end) t.

(** The bytes given to [at_serial_input], in order. *)
Definition at_input_of (t : list Event) : list Z :=
  flat_map (fun e => match e with EAt_serial_input c => [c] | _ => [] end) t.

(** The buffers given to either send call, in order. *)
Definition sent_of (t : list Event) : list (list Z * Z) :=
  flat_map (fun e => match e with
                     | ESend_lora_packet buf size _ _ => [(buf, size)]
                     | ESend_p2p_packet buf size => [(buf, size)]
                     | _ => []
                     end) t.

(** The calls of the loop of [ble_data_handler] on the bytes [rx]. *)
Definition drain_events (rx : list Z) : list Event :=
  flat_map (fun c => [EAt_serial_input (u8 c); EDelay 5]) rx.

(** The first [n] values of a stream. *)
Definition take_stream {A : Type} (n : nat) (p : nat -> A) : list A :=
  map p (seq 0 n).

(** The calls of one MYLOG. *)
Definition mylog_events (connected : bool) (tag fmt : string) (args : list LogArg)
  : list Event :=
  ELog tag fmt args :: (if connected then [EBleLog fmt args] else []).

(** [batt_level_f] after the loop over the given samples. *)
Definition batt_sum (samples : list float) : float :=
  fold_left fadd samples (float_of_double (double_lit 0)).
End Traces.

(** ** Relations between the state before and after a handler *)

Section Relations.
Context {FA : FloatArith} {API : WisBlockApi}.

Definition Rel : Type := State -> list Event -> State -> Prop.

(** A relation that holds of no step, and of two runs in a row when it
    holds of each. *)
Class Monoidal (R : Rel) : Prop := {
  rel_nil : forall s, R s [] s;
  rel_app : forall s t1 s1 t2 s2, R s t1 s1 -> R s1 t2 s2 -> R s (t1 ++ t2) s2
}.

(** [sat rst R m]: from every state [m] ends, restarting only if [rst]
    allows it, and [R] relates the state before, the trace and the
    state after. *)
Definition sat {A : Type} (rst : bool) (R : Rel) (m : M A) : Prop :=
  forall s,
    match m s with
    | Returned _ s' t => R s t s'
    | Restarted s' t => rst = true /\ R s t s'
    | OutOfFuel => False
    end.

(** The handler does not change [g s]. *)
Definition keeps {B : Type} (g : State -> B) : Rel :=
  fun s _ s' => g s' = g s.

(** The handler keeps [I] true. *)
Definition holds (I : State -> Prop) : Rel :=
  fun s _ s' => I s -> I s'.

(** Every call of the handler is one that [p] accepts. *)
Definition emits (p : Event -> bool) : Rel :=
  fun _ t _ => forallb p t = true.

(** The handler writes the bits [X] of the flag word no more: they
    are set afterwards if they were set before or a producer set them
    during one of the handler's calls. *)
Definition no_clear (X : Z) : Rel :=
  fun s t s' =>
    (forall i, isr s' i = isr s (List.length t + i)%nat) /\
    (has X (g_task_event_type s) = true \/
     (exists j, (j < List.length t)%nat /\ has X (isr s j) = true) ->
     has X (g_task_event_type s') = true).

Definition rel_and (R1 R2 : Rel) : Rel :=
  fun s t s' => R1 s t s' /\ R2 s t s'.

(** The bits [X] are set. *)
Definition bit_set (X : Z) (s : State) : Prop :=
  has X (g_task_event_type s) = true.

(** The bits [X] are clear and no producer sets them. *)
Definition cleared (X : Z) (s : State) : Prop :=
  Z.land (g_task_event_type s) X = 0 /\ quiet X s.


End Relations.

(** ** What the properties speak of *)

Section Properties.
Context {FA : FloatArith} {API : WisBlockApi}.


(** The voltage record of the samples fits the payload buffer. *)
Definition reading_fits (s : State) : Prop :=
  record_size
    (voltage_record LPP_CHANNEL_BATT (batt_volts (batt_sum (take_stream 10 (batt s)))))
  <= maxsize (payload s).

End Properties.

(** ** A platform to run the model on *)

(** Exact arithmetic: both C types are the rationals. *)
Definition exact_arith : FloatArith :=
  {| float := Q; double := Q;
     float_of_int := inject_Z; double_lit := inject_Z;
     float_of_double := fun q => q; double_of_float := fun q => q;
     fadd := Qplus; fdiv := Qdiv; ddiv := Qdiv |}.

(** The Cayenne LPP voltage format: two bytes, big-endian, in units of
    0.01 V. *)
Definition lpp_voltage_2bytes (v : Q) : list Z :=
  let x := Qfloor (Qmult v (inject_Z 100)) in [u8 (x / 256); u8 x].

(** One bit for each event kind, [N_X] the 16-bit complement of [X];
    a pin number, and the channel and type numbers of a Cayenne LPP
    battery voltage. *)
Definition wisblock_api : @WisBlockApi exact_arith :=
  {| STATUS := 1;         N_STATUS := 65534;
     BLE_DATA := 4;       N_BLE_DATA := 65531;
     LORA_DATA := 8;      N_LORA_DATA := 65527;
     LORA_TX_FIN := 16;   N_LORA_TX_FIN := 65519;
     LORA_JOIN_FIN := 64; N_LORA_JOIN_FIN := 65471;
     WB_IO2 := 34;
     LPP_CHANNEL_BATT := 1;
     LPP_VOLTAGE := 116;
     lpp_voltage_bytes := lpp_voltage_2bytes : @float exact_arith -> list Z |}.

Definition demo_api (ble wan : bool) (confirmed : lmh_confirm) (joined ack : bool)
  : ApiGlobals :=
  {| g_enable_ble := ble; g_ble_uart_is_connected := false;
     g_lorawan_settings := {| lorawan_enable := wan; confirmed_msg_enabled := confirmed |};
     g_lpwan_has_joined := joined; g_join_result := joined; g_rx_fin_result := ack;
     g_last_rssi := -80; g_last_snr := 7;
     g_rx_data_len := 2; g_rx_lora_data := [171; 5];
     LoRaMacDevAddr := 0; NwSkey := repeat 0 16; AppSkey := repeat 0 16 |}.

(** A state with the given flag word, failure counter, API globals, BLE
    bytes and producers; an empty 255-byte payload, a battery at 3700 mV
    and a radio that accepts every packet. *)
Definition demo_state (flags fails : Z) (a : ApiGlobals) (rx : list Z) (producers : nat -> Z)
  : @State exact_arith :=
  {| g_task_event_type := flags; send_fail := fails;
     payload := {| maxsize := 255; records := [] |};
     api := a; ble_rx := rx;
     batt := fun _ => (inject_Z 3700 : @float exact_arith);
     lora_status := fun _ => LMH_SUCCESS;
     isr := producers |}.

(** Producers that set nothing, and producers that set [bits] during
    the call number [n] only. *)
Definition no_irq : nat -> Z := fun _ => 0.
Definition irq_at (n : nat) (bits : Z) : nat -> Z :=
  fun i => if Nat.eqb i n then bits else 0.

Definition st_status_p2p : @State exact_arith :=
  demo_state 1 0 (demo_api true false LMH_UNCONFIRMED_MSG false true) [] no_irq.
Definition st_status_not_joined : @State exact_arith :=
  demo_state 1 0 (demo_api true true LMH_UNCONFIRMED_MSG false true) [] no_irq.
Definition st_status_joined : @State exact_arith :=
  demo_state 1 0 (demo_api true true LMH_UNCONFIRMED_MSG true true) [] no_irq.
Definition st_ble_enabled : @State exact_arith :=
  demo_state 4 0 (demo_api true true LMH_UNCONFIRMED_MSG true true) [65; 84; 13] no_irq.
Definition st_ble_disabled : @State exact_arith :=
  demo_state 4 0 (demo_api false true LMH_UNCONFIRMED_MSG true true) [65; 84; 13] no_irq.

(** ** More to say of the handlers *)

Section MoreTraces.
Context {FA : FloatArith}.

Definition is_digital_write (e : Event) : bool :=
  match e with EDigitalWrite _ _ => true | _ => false end.
Definition is_delay (e : Event) : bool :=
  match e with EDelay _ => true | _ => false end.
Definition is_read_batt (e : Event) : bool :=
  match e with ERead_batt _ => true | _ => false end.
Definition is_lmh_call (e : Event) : bool :=
  match e with ELmh_getNwSkey | ELmh_getAppSkey => true | _ => false end.

(** The milliseconds spent in [delay], summed over the trace. *)
Definition delayed_ms (t : list Event) : Z :=
  fold_right (fun e ms => match e with EDelay d => d + ms | _ => ms end) 0 t.

End MoreTraces.

(** The three characters of one byte in the hex dump. *)
Definition hex3 (b : Z) : list Z :=
  [hex_digit (u8 b / 16); hex_digit (u8 b mod 16); 32].

(** Two buffers with their NULs at the same places. *)
Definition same_nuls (l l' : list Z) : Prop :=
  map (Z.eqb 0) l = map (Z.eqb 0) l'.

(** Two results of a write, both outside the array or both inside and
    with their NULs at the same places. *)
Definition same_shape (o o' : option (list Z)) : Prop :=
  match o, o' with
  | Some l, Some l' => same_nuls l l'
  | None, None => True
  | _, _ => False
  end.

(** The three handlers that the main loop of the API calls, and the
    event kinds that each of them tests. *)
Inductive Handler : Type := AppHandler | LoraHandler | BleHandler.

Definition serves (h : Handler) (k : EventKind) : bool :=
  match h, k with
  | AppHandler, EvStatus => true
  | LoraHandler, (EvJoinFin | EvLoraData | EvTxFin) => true
  | BleHandler, EvBleData => true
  | _, _ => false
  end.

Section MoreRuns.
Context {FA : FloatArith} {API : WisBlockApi}.

Definition run_handler (h : Handler) (fuel : nat) : M unit :=
  match h with
  | AppHandler => app_event_handler
  | LoraHandler => lora_data_handler
  | BleHandler => ble_data_handler fuel
  end.

(** The line that the status block logs for a result of
    [send_lora_packet]. *)
Definition enqueue_line (result : lmh_error_status) : string :=
  match result with
  | LMH_SUCCESS => "Packet enqueued"
  | LMH_BUSY => "LoRa transceiver is busy"
  | LMH_ERROR => "Packet error, too big to send with current DR"
  end.

(** Modelled from the spec: the periodic tick (section 6) is a producer
    (section 2): it sets the status bit. *)
Definition timer_fired (s : State) : State :=
  set_g_task_event_type (u16 (Z.lor (g_task_event_type s) STATUS)) s.

(** A run of timer ticks, each handled by [app_event_handler] before
    the next one. *)
Fixpoint status_events (n : nat) : M unit :=
  match n with
  | O => ret tt
  | S n' =>
      modify timer_fired ;;
      app_event_handler ;;
      status_events n'
  end.

(** Every voltage record fits the payload buffer. *)
Definition voltage_fits (s : State) : Prop :=
  forall v, record_size (voltage_record LPP_CHANNEL_BATT v) <= maxsize (payload s).
End MoreRuns.

Section MoreStatus.
Context {FA : FloatArith} {API : WisBlockApi}.

(** The calls of the status block between its two writes of WB_IO2. *)
Definition status_mid_call (e : Event) : bool :=
  is_read_batt e || is_log e || is_send_lora_packet e || is_send_p2p_packet e.

(** The handler has taken from the sampler the samples of its trace and
    no others. *)
Definition batt_adv : Rel :=
  fun s t s' => forall i, batt s' i = batt s (List.length (samples_of t) + i)%nat.

(** The voltage record of the cycle number [m] (from 0) of a run of
    status events that starts in [s]. *)
Definition reading_of_cycle (s : State) (m : nat) : LppRecord :=
  voltage_record LPP_CHANNEL_BATT
    (batt_volts (batt_sum (take_stream 10 (fun i => batt s (10 * m + i)%nat)))).
End MoreStatus.

(** ** The start of the application: [setup_app] and [init_app] *)

(** What the start-up code takes from the Arduino core: the pin of the
    green LED, the pin mode OUTPUT, and the value that the target
    computes for [millis() - serial_timeout], an [unsigned long] minus
    a [time_t]. *)
Class ArduinoCore : Type := {
  LED_GREEN : Z;
  OUTPUT : Z;
  millis_since : Z -> Z -> Z          (* the reading of millis(), serial_timeout *)
}.

(** Until the millisecond counter wraps, the difference is the time
    that has passed. *)
Class ArduinoCoreOk {AC : ArduinoCore} : Prop := {
  millis_since_elapsed :
    forall now start : Z,
      0 <= start <= now -> now < 2 ^ 32 -> millis_since now start = now - start
}.

Definition SW_VERSION_1 : Z := 1.
Definition SW_VERSION_2 : Z := 0.
Definition SW_VERSION_3 : Z := 0.

(** [%d] *)
Definition sprintf_d (z : Z) : string :=
  DecimalString.NilZero.string_of_int (Z.to_int z).

(** [snprintf(buf, n, "WisBlock Low Power V%d.%d.%d", v1, v2, v3)]: of
    the formatted text, what fits before the NUL in [n] bytes. *)
Definition snprintf_fw_ver (n : nat) (v1 v2 v3 : Z) : string :=
  substring 0 (n - 1)
    ("WisBlock Low Power V" ++ sprintf_d v1 ++ "." ++ sprintf_d v2 ++ "."
     ++ sprintf_d v3).

Definition set_g_enable_ble (v : bool) (a : ApiGlobals) : ApiGlobals :=
  {| g_enable_ble := v;
     g_ble_uart_is_connected := g_ble_uart_is_connected a;
     g_lorawan_settings := g_lorawan_settings a;
     g_lpwan_has_joined := g_lpwan_has_joined a;
     g_join_result := g_join_result a;
     g_rx_fin_result := g_rx_fin_result a;
     g_last_rssi := g_last_rssi a; g_last_snr := g_last_snr a;
     g_rx_data_len := g_rx_data_len a; g_rx_lora_data := g_rx_lora_data a;
     LoRaMacDevAddr := LoRaMacDevAddr a; NwSkey := NwSkey a; AppSkey := AppSkey a |}.

(** The calls of the start-up code: those of the handlers, and four
    that only the start-up code makes. *)
Inductive BootEvent {FA : FloatArith} : Type :=
| BApp (e : Event)
| BSerial_begin (baud : Z)
| BApi_set_version (v1 v2 v3 : Z)
| BPinMode (pin mode : Z)
| BRestart_advertising (timeout : Z).

(** The board at start-up: the globals of the handlers, the firmware
    name of the API, and what the board will answer. *)
Record Board {FA : FloatArith} : Type := {
  globals : State;
  g_custom_fw_ver : string;
  serial_ready : nat -> bool;   (* what the next tests of [Serial] give *)
  clock : nat -> Z;             (* what the next calls of millis() return *)
  pin_levels : nat -> Z         (* what the next calls of digitalRead() return *)
}.

Inductive BootOutcome {FA : FloatArith} (A : Type) : Type :=
| Booted (a : A) (b : Board) (t : list BootEvent)
| BootRestarted (b : Board) (t : list BootEvent)
| BootOutOfFuel.
Arguments BootRestarted {FA A} b t.
Arguments BootOutOfFuel {FA A}.

Section BootMachine.
Context {FA : FloatArith} {API : WisBlockApi}.

Definition set_globals (v : State) (b : Board) : Board :=
  {| globals := v; g_custom_fw_ver := g_custom_fw_ver b;
     serial_ready := serial_ready b; clock := clock b; pin_levels := pin_levels b |}.

Definition set_g_custom_fw_ver (v : string) (b : Board) : Board :=
  {| globals := globals b; g_custom_fw_ver := v;
     serial_ready := serial_ready b; clock := clock b; pin_levels := pin_levels b |}.

Definition set_serial_ready (v : nat -> bool) (b : Board) : Board :=
  {| globals := globals b; g_custom_fw_ver := g_custom_fw_ver b;
     serial_ready := v; clock := clock b; pin_levels := pin_levels b |}.

Definition set_clock (v : nat -> Z) (b : Board) : Board :=
  {| globals := globals b; g_custom_fw_ver := g_custom_fw_ver b;
     serial_ready := serial_ready b; clock := v; pin_levels := pin_levels b |}.

Definition set_pin_levels (v : nat -> Z) (b : Board) : Board :=
  {| globals := globals b; g_custom_fw_ver := g_custom_fw_ver b;
     serial_ready := serial_ready b; clock := clock b; pin_levels := v |}.

Definition Boot (A : Type) : Type := Board -> BootOutcome A.

Definition boot_ret {A : Type} (a : A) : Boot A := fun b => Booted a b [].

Definition boot_prefix {A : Type} (t1 : list BootEvent) (o : BootOutcome A)
  : BootOutcome A :=
  match o with
  | Booted a b t2 => Booted a b (t1 ++ t2)
  | BootRestarted b t2 => BootRestarted b (t1 ++ t2)
  | BootOutOfFuel => BootOutOfFuel
  end.

Definition boot_bind {A B : Type} (m : Boot A) (f : A -> Boot B) : Boot B :=
  fun b =>
    match m b with
    | Booted a b1 t1 => boot_prefix t1 (f a b1)
    | BootRestarted b1 t1 => BootRestarted b1 t1
    | BootOutOfFuel => BootOutOfFuel
    end.

(** A call that the handlers make as well, on the globals. *)
Definition lift {A : Type} (m : M A) : Boot A :=
  fun b =>
    match m (globals b) with
    | Returned a s t => Booted a (set_globals s b) (map BApp t)
    | Restarted s t => BootRestarted (set_globals s b) (map BApp t)
    | OutOfFuel => BootOutOfFuel
    end.

Definition boot_call (e : BootEvent) : Boot unit :=
  fun b => Booted tt (set_globals (irq (globals b)) b) [e].

Definition boot_modify (f : Board -> Board) : Boot unit :=
  fun b => Booted tt (f b) [].
End BootMachine.

Declare Scope boot_scope.
Delimit Scope boot_scope with boot.
Notation "x <- m ;; k" := (boot_bind m (fun x => k))
  (at level 61, m at next level, right associativity) : boot_scope.
Notation "m ;; k" := (boot_bind m (fun _ => k))
  (at level 61, right associativity) : boot_scope.

Section StartUp.
Context {FA : FloatArith} {API : WisBlockApi} {AC : ArduinoCore}.
Local Open Scope boot_scope.

(** [Serial] in a condition, [millis()] and [digitalRead(pin)]: the
    next answer of the board. *)
Definition Serial : Boot bool :=
  fun b => Booted (serial_ready b O)
             (set_serial_ready (tl_stream (serial_ready b)) b) [].

Definition millis : Boot Z :=
  fun b => Booted (clock b O) (set_clock (tl_stream (clock b)) b) [].

Definition digitalRead (pin : Z) : Boot Z :=
  fun b => Booted (pin_levels b O) (set_pin_levels (tl_stream (pin_levels b)) b) [].

(** The loop [while (!Serial)] of [setup_app], with its [break]. *)
Fixpoint setup_wait (fuel : nat) (serial_timeout : Z) : Boot unit :=
  match fuel with
  | O => fun _ => BootOutOfFuel
  | S fuel' =>
      up <- Serial ;;
      if negb up then
        now <- millis ;;
        if millis_since now serial_timeout <? 5000 then
          lift (delay 100) ;;
          level <- digitalRead LED_GREEN ;;
          lift (digitalWrite LED_GREEN (level =? 0)) ;;
          setup_wait fuel' serial_timeout
        else boot_ret tt
      else boot_ret tt
  end.

Definition setup_app (fuel : nat) : Boot unit :=
  boot_call (BSerial_begin 115200) ;;
  serial_timeout <- millis ;;
  setup_wait fuel serial_timeout ;;
  lift (digitalWrite LED_GREEN false) ;;
  boot_call (BApi_set_version SW_VERSION_1 SW_VERSION_2 SW_VERSION_3) ;;
  lift (MYLOG "APP" "Setup application" []) ;;
  boot_modify (fun b =>
    set_globals (set_api (set_g_enable_ble true (api (globals b))) (globals b)) b).

Definition init_app : Boot bool :=
  lift (MYLOG "APP" "Initialize application" []) ;;
  boot_call (BPinMode WB_IO2 OUTPUT) ;;
  lift (digitalWrite WB_IO2 false) ;;
  boot_call (BRestart_advertising 30) ;;
  boot_modify (set_g_custom_fw_ver
                 (snprintf_fw_ver 63 SW_VERSION_1 SW_VERSION_2 SW_VERSION_3)) ;;
  boot_ret true.

(** *** Reading the calls of the start *)

(** The calls of one round of the loop that found the LED at [level]. *)
Definition blink (level : Z) : list BootEvent :=
  [BApp (EDelay 100); BApp (EDigitalWrite LED_GREEN (level =? 0))].

(** The calls of the first [n] rounds. *)
Definition blinks (n : nat) (levels : nat -> Z) : list BootEvent :=
  flat_map blink (take_stream n levels).

(** The test that ends the loop, in the round number [i] (from 0) of
    [setup_app] on the board [b]: the port is up, or the 5000 ms have
    passed.  The first call of millis() gave [serial_timeout]. *)
Definition wait_over (b : Board) (i : nat) : bool :=
  serial_ready b i || negb (millis_since (clock b (S i)) (clock b O) <? 5000).

(** The loop ends in the round number [n] and not before. *)
Definition waits (b : Board) (n : nat) : Prop :=
  (forall i, (i < n)%nat -> wait_over b i = false) /\ wait_over b n = true.

(** After every delay(100) the clock has advanced by 100 ms or more,
    and it does not wrap in the first [rounds] rounds. *)
Definition paced (rounds : nat) (b : Board) : Prop :=
  0 <= clock b O /\
  clock b O <= clock b 1%nat /\
  (forall i, (i < rounds)%nat -> clock b (S i) + 100 <= clock b (S (S i))) /\
  clock b (S rounds) < 2 ^ 32.

(** The calls of the handlers among those of the start. *)
Definition app_events (t : list BootEvent) : list Event :=
  flat_map (fun e => match e with BApp e' => [e'] | _ => [] end) t.

(** The level that the last call of digitalWrite gave to [pin]. *)
Definition last_write (pin : Z) (t : list BootEvent) : option bool :=
  fold_left (fun level e =>
               match e with
               | BApp (EDigitalWrite p high) => if p =? pin then Some high else level
               | _ => level
               end) t None.

(** [init_app], and then [n] timer ticks. *)
Definition init_then_status (n : nat) : Boot bool :=
  ok <- init_app ;;
  lift (status_events n) ;;
  boot_ret ok.

(** The calls of [setup_app] when its loop makes [n] rounds, and the
    calls of [init_app]. *)
Definition setup_calls (connected : bool) (n : nat) (levels : nat -> Z)
  : list BootEvent :=
  [BSerial_begin 115200]
  ++ blinks n levels
  ++ [BApp (EDigitalWrite LED_GREEN false);
      BApi_set_version SW_VERSION_1 SW_VERSION_2 SW_VERSION_3]
  ++ map BApp (mylog_events connected "APP" "Setup application" []).

Definition init_calls (connected : bool) : list BootEvent :=
  map BApp (mylog_events connected "APP" "Initialize application" [])
  ++ [BPinMode WB_IO2 OUTPUT; BApp (EDigitalWrite WB_IO2 false);
      BRestart_advertising 30].

(** The globals that no producer writes are as they were. *)
Definition same_app (s s' : State) : Prop :=
  api s' = api s /\ send_fail s' = send_fail s /\ payload s' = payload s /\
  ble_rx s' = ble_rx s /\ batt s' = batt s /\ lora_status s' = lora_status s.
End StartUp.

(** ** More states, and a board *)

Definition st_join_ok : @State exact_arith :=
  demo_state 64 0 (demo_api true true LMH_UNCONFIRMED_MSG true true) [] no_irq.
(** A data-received event with a packet of 100 bytes. *)
Definition with_packet (data : list Z) (a : ApiGlobals) : ApiGlobals :=
  {| g_enable_ble := g_enable_ble a;
     g_ble_uart_is_connected := g_ble_uart_is_connected a;
     g_lorawan_settings := g_lorawan_settings a;
     g_lpwan_has_joined := g_lpwan_has_joined a;
     g_join_result := g_join_result a;
     g_rx_fin_result := g_rx_fin_result a;
     g_last_rssi := g_last_rssi a; g_last_snr := g_last_snr a;
     g_rx_data_len := Z.of_nat (List.length data); g_rx_lora_data := data;
     LoRaMacDevAddr := LoRaMacDevAddr a; NwSkey := NwSkey a; AppSkey := AppSkey a |}.
Definition st_data : @State exact_arith :=
  demo_state 8 0
    (with_packet (repeat 171 100) (demo_api true true LMH_UNCONFIRMED_MSG true true))
    [] no_irq.

(** The Arduino core of a 32-bit target: pin 35 for the green LED, and
    the difference of two readings of the millisecond counter modulo
    2^32. *)
Definition arduino_core : ArduinoCore :=
  {| LED_GREEN := 35; OUTPUT := 1;
     millis_since := fun now start => (now - start) mod 2 ^ 32 |}.

(** A board just powered: the BLE link not yet enabled, a clock read
    every 100 ms from 20 ms on, an LED that is read back as written, and
    a serial port that answers as [ready] says. *)
Definition demo_board (ready : nat -> bool) : @Board exact_arith :=
  {| globals := demo_state 0 0 (demo_api false true LMH_UNCONFIRMED_MSG false false)
                  [] no_irq;
     g_custom_fw_ver := "";
     serial_ready := ready;
     clock := fun i => 20 + 100 * Z.of_nat i;
     pin_levels := fun i => Z.of_nat (i mod 2) |}.

(** The port comes up before the third test; the port never comes up. *)
Definition usb_after_two : nat -> bool := fun i => Nat.leb 2 i.
Definition usb_never : nat -> bool := fun _ => false.

(** ** The arithmetic of the target: IEEE 754 *)

(** [float] is binary32 and [double] is binary64, both rounded to
    nearest, ties to even.  A finite number is the rational it stands
    for, rounding is a function on the rationals, and the operations are
    the exact ones followed by the rounding.  The sign of a zero is not
    kept: main.cpp has no operation that can tell the two zeros apart. *)

(** A binary format: [prec] bits of precision, the exponent [emin] of
    its smallest positive number and the exponent [emax] from which the
    numbers are too large for it. *)
Record BinaryFormat : Type := { prec : Z; emin : Z; emax : Z }.

Definition binary32 : BinaryFormat := {| prec := 24; emin := -149; emax := 128 |}.
Definition binary64 : BinaryFormat := {| prec := 53; emin := -1074; emax := 1024 |}.

Definition pow2 (e : Z) : Q := Qpower 2 e.

(** The magnitude of a number that is not zero: the [e] with
    [2^(e-1) <= |x| < 2^e]. *)
Definition mag (x : Q) : Z :=
  let k := Z.log2 (Z.abs (Qnum x)) - Z.log2 (QDen x) in
  if Qle_bool (pow2 k) (Qabs x) then k + 1 else k.

(** The nearest integer, the even one of two that are as near. *)
Definition rne (y : Q) : Z :=
  let f := Qfloor y in
  match Qcompare (y - inject_Z f) (1 # 2) with
  | Lt => f
  | Gt => f + 1
  | Eq => if Z.even f then f else f + 1
  end.

(** The nearest number of the format, were its exponents unbounded
    above: a multiple of [2^e], where [e] leaves [prec] bits to the
    number, or is [emin] for a number in the subnormal range. *)
Definition round (fmt : BinaryFormat) (x : Q) : Q :=
  if Qeq_bool x 0 then 0%Q
  else
    let e := Z.max (mag x - prec fmt) (emin fmt) in
    Qred (Qmult (inject_Z (rne (Qdiv x (pow2 e)))) (pow2 e)).

Inductive ieee : Type :=
| Finite (q : Q)
| Infinity (negative : bool)
| NaN.

(** The result of an operation whose exact result is [x]: rounded, and
    an infinity when the rounded number is too large. *)
Definition to_ieee (fmt : BinaryFormat) (x : Q) : ieee :=
  let r := round fmt x in
  if Qle_bool (pow2 (emax fmt)) (Qabs r) then Infinity (negb (Qle_bool 0 r))
  else Finite r.

Definition ieee_add (fmt : BinaryFormat) (a b : ieee) : ieee :=
  match a, b with
  | Finite x, Finite y => to_ieee fmt (Qplus x y)
  | Infinity n, Finite _ | Finite _, Infinity n => Infinity n
  | Infinity n, Infinity n' => if Bool.eqb n n' then Infinity n else NaN
  | NaN, _ | _, NaN => NaN
  end.

Definition ieee_div (fmt : BinaryFormat) (a b : ieee) : ieee :=
  match a, b with
  | Finite x, Finite y =>
      if Qeq_bool y 0 then
        if Qeq_bool x 0 then NaN else Infinity (negb (Qle_bool 0 x))
      else to_ieee fmt (Qdiv x y)
  | Finite _, Infinity _ => Finite 0
  | Infinity n, Finite y => Infinity (xorb n (negb (Qle_bool 0 y)))
  | Infinity _, Infinity _ => NaN
  | NaN, _ | _, NaN => NaN
  end.

(** A conversion to the format, also of an integer or of a literal. *)
Definition ieee_convert (fmt : BinaryFormat) (a : ieee) : ieee :=
  match a with
  | Finite x => to_ieee fmt x
  | Infinity n => Infinity n
  | NaN => NaN
  end.

Definition ieee_arith : FloatArith :=
  {| float := ieee; double := ieee;
     float_of_int := fun z => to_ieee binary32 (inject_Z z);
     double_lit := fun z => to_ieee binary64 (inject_Z z);
     float_of_double := ieee_convert binary32;
     double_of_float := ieee_convert binary64;
     fadd := ieee_add binary32;
     fdiv := ieee_div binary32;
     ddiv := ieee_div binary64 |}.

(** *** What the spec says of the voltage *)

(** The arithmetic mean of samples, and millivolts scaled to volts, in
    the rationals. *)
Definition sumQ (qs : list Q) : Q := fold_right Qplus 0%Q qs.

Definition mean (samples : list Q) : Q :=
  Qdiv (sumQ samples) (inject_Z (Z.of_nat (List.length samples))).

Definition volts (millivolts : Q) : Q := Qdiv millivolts 1000.

(** [y] is [Y] up to the relative error [c] and the absolute error [a]. *)
Definition near (c a y Y : Q) : Prop :=
  Qle (Y - (c * Y + a))%Q y /\ Qle y (Y + (c * Y + a))%Q.

(** Half a unit in the last place of binary32, relative to the number,
    and half the distance of two subnormal numbers of binary32. *)
Definition u32 : Q := 1 # 16777216.
Definition eta : Q := pow2 (-150).

(** The format rounds as finely as binary32 and reaches as far. *)
Definition fits (fmt : BinaryFormat) : Prop :=
  Qle (pow2 (- prec fmt)) u32 /\ Qle (pow2 (emin fmt - 1)) eta /\
  Qle (pow2 128) (pow2 (emax fmt)).

(** *** The target as a platform *)

(** A Cayenne LPP voltage from a [float]: the product with 100 in
    binary32, cut off to an integer, in two bytes, big-endian.  (What
    the encoder makes of an infinity or a NaN is left open: two bytes
    all the same.) *)
Definition lpp_voltage_of_float (v : ieee) : list Z :=
  match v with
  | Finite q =>
      match to_ieee binary32 (Qmult q 100) with
      | Finite p => let x := Qfloor p in [u8 (x / 256); u8 x]
      | _ => [255; 255]
      end
  | _ => [255; 255]
  end.

Definition wisblock_ieee : @WisBlockApi ieee_arith :=
  {| STATUS := 1;         N_STATUS := 65534;
     BLE_DATA := 4;       N_BLE_DATA := 65531;
     LORA_DATA := 8;      N_LORA_DATA := 65527;
     LORA_TX_FIN := 16;   N_LORA_TX_FIN := 65519;
     LORA_JOIN_FIN := 64; N_LORA_JOIN_FIN := 65471;
     WB_IO2 := 34;
     LPP_CHANNEL_BATT := 1;
     LPP_VOLTAGE := 116;
     lpp_voltage_bytes := lpp_voltage_of_float : @float ieee_arith -> list Z |}.

(** A status event on a node whose sampler reads 4180 mV every time. *)
Definition st_status_4180 : @State ieee_arith :=
  {| g_task_event_type := 1; send_fail := 0;
     payload := {| maxsize := 255; records := [] |};
     api := demo_api true true LMH_UNCONFIRMED_MSG true true; ble_rx := [];
     batt := fun _ => (Finite 4180 : @float ieee_arith);
     lora_status := fun _ => LMH_SUCCESS;
     isr := no_irq |}.

(** * Proofs *)

(** ** The flag word *)

Module Bits.
Lemma land_u16 (w X : Z) : 0 <= X <= 65535 -> Z.land (u16 w) X = Z.land w X.
Proof.
  intros HX. unfold u16.
  rewrite <- Z.land_assoc.
  replace (Z.land 65535 X) with X; [reflexivity|].
  rewrite Z.land_comm.
  change 65535 with (Z.ones 16).
  rewrite Z.land_ones by lia.
  symmetry. apply Z.mod_small. change (2 ^ 16) with 65536. lia.
Qed.

Lemma has_true (X w : Z) : has X w = true <-> Z.land w X = X.
Proof. unfold has. apply Z.eqb_eq. Qed.

(** Equations between words, bit by bit. *)
Ltac at_bit H n :=
  let Hb := fresh "Hb" in
  pose proof (f_equal (fun z => Z.testbit z n) H) as Hb; cbv beta in Hb;
  rewrite ?Z.land_spec, ?Z.lor_spec, ?Z.bits_0 in Hb.

Ltac by_bits :=
  rewrite ?Z.land_spec, ?Z.lor_spec, ?Z.bits_0;
  repeat match goal with
         | |- context [Z.testbit ?a ?n] => destruct (Z.testbit a n)
         | H : context [Z.testbit ?a ?n] |- _ => destruct (Z.testbit a n)
         end;
  simpl in *; congruence.


Lemma has_irq_set (X w b : Z) :
  0 <= X <= 65535 -> has X b = true -> has X (u16 (Z.lor w b)) = true.
Proof.
  intros HX H. apply has_true in H. apply has_true.
  rewrite land_u16 by assumption.
  apply Z.bits_inj'; intros n _. at_bit H n. by_bits.
Qed.




End Bits.

(** ** Rules for [sat] *)

Section SatRules.
Context {FA : FloatArith} {API : WisBlockApi}.
Variable rst : bool.
Variable R : Rel.
Context {MR : Monoidal R}.

Lemma prefix_trace_nil {A : Type} (o : Outcome A) : prefix_trace [] o = o.
Proof. destruct o; reflexivity. Qed.

Lemma sat_ret {A : Type} (a : A) : sat rst R (ret a).
Proof. intros s. apply rel_nil. Qed.

Lemma sat_gets {A : Type} (f : State -> A) : sat rst R (gets f).
Proof. intros s. apply rel_nil. Qed.

Lemma sat_modify (f : State -> State) :
  (forall s, R s [] (f s)) -> sat rst R (modify f).
Proof. intros H s. apply H. Qed.

Lemma sat_call (e : Event) :
  (forall s, R s [e] (irq s)) -> sat rst R (call e).
Proof. intros H s. apply H. Qed.

Lemma sat_bind {A B : Type} (m : M A) (f : A -> M B) :
  sat rst R m -> (forall a, sat rst R (f a)) -> sat rst R (bind m f).
Proof.
  intros Hm Hf s. unfold bind.
  specialize (Hm s). destruct (m s) as [a s1 t1 | s1 t1 | ]; try assumption.
  specialize (Hf a s1). destruct (f a s1) as [b s2 t2 | s2 t2 | ]; simpl.
  - eapply rel_app; eassumption.
  - destruct Hf as [Hr Hf]. split; [assumption|]. eapply rel_app; eassumption.
  - assumption.
Qed.

Lemma sat_when (b : bool) (m : M unit) : sat rst R m -> sat rst R (when b m).
Proof. intros H. destruct b; simpl; [assumption | apply sat_ret]. Qed.
End SatRules.

Lemma sat_restart {FA : FloatArith} (R : Rel) (e : Event) :
  (forall s, R s [e] (irq s)) -> sat true R (restart e).
Proof. intros H s. simpl. split; [reflexivity | apply H]. Qed.

Lemma sat_read_batt_loop {FA : FloatArith} {API : WisBlockApi}
    (rst : bool) (R : Rel) {MR : Monoidal R} (n : nat) :
  sat rst R read_batt -> forall acc, sat rst R (read_batt_loop n acc).
Proof.
  intros H. induction n as [| n IH]; intros acc; simpl.
  - apply sat_ret; exact _.
  - apply sat_bind; [exact _ | assumption | intros v; apply IH].
Qed.


(** Takes a handler apart along its binds and branches; what is left
    are the steps: [modify], [call] and [restart]. *)
Ltac sat_steps :=
  repeat match goal with
    | |- Monoidal _ => exact _
    | |- sat _ _ (ret _) => apply sat_ret
    | |- sat _ _ (gets _) => apply sat_gets
    | |- sat _ _ (when _ _) => apply sat_when
    | |- sat _ _ (bind _ _) => apply sat_bind; [ | | intros ? ]
    | |- sat _ _ (modify _) => apply sat_modify; intros ?
    | |- sat _ _ (call _) => apply sat_call; intros ?
    | |- sat _ _ (restart _) => apply sat_restart; intros ?
    | |- sat _ _ (read_batt_loop _ _) => apply sat_read_batt_loop
    | |- sat _ _ (if ?b then _ else _) => destruct b
    | |- sat _ _ (match ?r with _ => _ end) => destruct r
    end.

Section Instances.
Context {FA : FloatArith} {API : WisBlockApi}.

#[global] Instance keeps_monoidal {B : Type} (g : State -> B) : Monoidal (keeps g).
Proof.
  split; unfold keeps.
  - reflexivity.
  - intros s t1 s1 t2 s2 H1 H2. congruence.
Qed.

#[global] Instance holds_monoidal (I : State -> Prop) : Monoidal (holds I).
Proof.
  split; unfold holds.
  - auto.
  - auto.
Qed.

#[global] Instance emits_monoidal (p : Event -> bool) : Monoidal (emits p).
Proof.
  split; unfold emits.
  - reflexivity.
  - intros s t1 s1 t2 s2 H1 H2. rewrite forallb_app, H1, H2. reflexivity.
Qed.

#[global] Instance rel_and_monoidal (R1 R2 : Rel)
  {M1 : Monoidal R1} {M2 : Monoidal R2} : Monoidal (rel_and R1 R2).
Proof.
  split; unfold rel_and.
  - intros s. split; apply rel_nil.
  - intros s t1 s1 t2 s2 [H1 H2] [H3 H4]. split; eapply rel_app; eassumption.
Qed.

#[global] Instance no_clear_monoidal (X : Z) : Monoidal (no_clear X).
Proof.
  split; unfold no_clear.
  - intros s. split; [reflexivity|].
    intros [H | [j [Hj _]]]; [assumption | inversion Hj].
  - intros s t1 s1 t2 s2 [Hi1 H1] [Hi2 H2]. split.
    + intros i. rewrite Hi2, Hi1, length_app. f_equal. lia.
    + intros H. apply H2.
      destruct H as [H | [j [Hj Hset]]].
      * left. apply H1. left. assumption.
      * rewrite length_app in Hj.
        destruct (Nat.lt_ge_cases j (List.length t1)) as [Hlt | Hge].
        -- left. apply H1. right. exists j. split; assumption.
        -- right. exists (j - List.length t1)%nat. split; [lia|].
           rewrite Hi1. replace (List.length t1 + (j - List.length t1))%nat with j by lia.
           assumption.
Qed.
End Instances.

Ltac handlers_unfold :=
  unfold lora_data_handler, lora_join_fin, lora_data, lora_tx_fin,
    lora_before_tx, join_fin_event, lora_data_event, tx_fin_event,
    join_fin_body, lora_data_body, tx_fin_body,
    app_event_handler, status_event, status_body, status_prepare, status_battery,
    status_transmit, MYLOG, digitalWrite, delay, read_batt, send_lora_packet,
    send_p2p_packet, at_serial_input, api_reset, lmh_getNwSkey,
    lmh_getAppSkey, clear_event.

Ltac sat_run := repeat (progress handlers_unfold; sat_steps).

(** ** What the blocks leave alone *)

Ltac frame_leaf :=
  unfold keeps, holds, emits, no_clear, cleared, quiet; simpl; intros;
  try reflexivity; try assumption.

Section Frames.
Context {FA : FloatArith} {API : WisBlockApi}.

Lemma bind_assoc {A B C : Type} (m : M A) (f : A -> M B) (g : B -> M C) (s : State) :
  bind (bind m f) g s = bind m (fun a => bind (f a) g) s.
Proof.
  unfold bind. destruct (m s) as [a s1 t1 | s1 t1 | ]; try reflexivity.
  destruct (f a s1) as [b s2 t2 | s2 t2 | ]; simpl; try reflexivity.
  destruct (g b s2) as [c s3 t3 | s3 t3 | ]; simpl; try reflexivity;
    rewrite app_assoc; reflexivity.
Qed.






(** *** The flag word across the blocks *)

Context {OK : TaskEventsOk}.

Lemma mask_in_range (k : EventKind) : 0 <= mask k <= 65535.
Proof. pose proof (mask_range k). lia. Qed.








End Frames.

(** ** Running a block *)

(** Unfolds the monad and evaluates, taking the branches that the
    hypotheses decide and splitting on the others. *)
Ltac run_unfold :=
  unfold clear_event, MYLOG, digitalWrite, delay, api_reset, read_batt,
    send_lora_packet, send_p2p_packet, at_serial_input, lmh_getNwSkey,
    lmh_getAppSkey, g_ble_uart_available, g_ble_uart_read,
    bind, gets, modify, call, restart, when, ret, irq, after_clear,
    set_g_task_event_type, set_send_fail, set_payload, set_batt,
    set_lora_status, set_ble_rx, set_isr.

Ltac run_branches :=
  repeat (cbn;
          match goal with
          | H : ?c = _ |- context [lmh_confirm_eqb ?c _] => rewrite H
          | H : ?b = true |- context [?b] => rewrite H
          | H : ?b = false |- context [?b] => rewrite H
          | |- context [if ?b then _ else _] => destruct b eqn:?
          | |- context [match ?r with LMH_SUCCESS => _ | _ => _ end] =>
              destruct r eqn:?
          end);
  cbn.

(** ** The tx-finished block *)

Section TxFin.
Context {FA : FloatArith} {API : WisBlockApi}.


End TxFin.

(** ** Counting calls *)

Section Counting.
Context {FA : FloatArith}.

Lemma count_app (p : Event -> bool) (t1 t2 : list Event) :
  count p (t1 ++ t2) = (count p t1 + count p t2)%nat.
Proof. unfold count. rewrite filter_app, length_app. reflexivity. Qed.

Lemma count_none (p q : Event -> bool) (t : list Event) :
  (forall e, q e = true -> p e = false) ->
  forallb q t = true -> count p t = 0%nat.
Proof.
  intros Hpq. unfold count. induction t as [| e t IH]; simpl; [reflexivity|].
  intros H. apply andb_prop in H. destruct H as [He Ht].
  rewrite (Hpq e He). apply IH. assumption.
Qed.



Lemma mylog_events_are_logs (c : bool) (tag fmt : string) (args : list LogArg) :
  forallb is_log (mylog_events c tag fmt args) = true.
Proof. destruct c; reflexivity. Qed.
End Counting.

(** ** The failure counter *)

Section FailureCounter.
Context {FA : FloatArith} {API : WisBlockApi} {OK : TaskEventsOk}.








End FailureCounter.

(** ** The status block *)

Section Status.
Context {FA : FloatArith} {API : WisBlockApi}.

Lemma take_stream_S {A : Type} (n : nat) (p : nat -> A) :
  take_stream (S n) p = p O :: take_stream n (tl_stream p).
Proof.
  unfold take_stream. simpl. f_equal.
  rewrite <- seq_shift, map_map. reflexivity.
Qed.

(** The loop reads the next [n] samples and adds them up. *)
Lemma read_batt_loop_run (n : nat) : forall (acc : float) (s : State),
  exists s',
    read_batt_loop n acc s =
      Returned (fold_left fadd (take_stream n (batt s)) acc) s'
        (map ERead_batt (take_stream n (batt s))) /\
    payload s' = payload s /\ api s' = api s /\
    lora_status s' = lora_status s.
Proof.
  induction n as [| n IH]; intros acc s.
  - exists s. repeat split.
  - rewrite take_stream_S. simpl read_batt_loop.
    unfold bind at 1. unfold read_batt. run_unfold. cbn.
    match goal with
    | |- context [read_batt_loop n ?a ?s1] =>
        destruct (IH a s1) as [s' [E [Hp [Ha Hl]]]]
    end.
    cbn in E. rewrite E. exists s'. cbn. repeat split; assumption.
Qed.

Lemma status_prepare_run (s : State) :
  exists s0,
    status_prepare s =
      Returned tt s0
        (mylog_events (g_ble_uart_is_connected (api s)) "APP" "Timer wakeup" []
         ++ [EDigitalWrite WB_IO2 true]) /\
    payload s0 = reset (payload s) /\ api s0 = api s /\
    batt s0 = batt s /\ lora_status s0 = lora_status s.
Proof.
  unfold status_prepare. run_unfold. run_branches;
    eexists; (split; [reflexivity|]); repeat split.
Qed.

Lemma status_battery_run (s : State) :
  exists s1,
    status_battery s =
      Returned tt s1 (map ERead_batt (take_stream 10 (batt s))) /\
    payload s1 =
      addVoltage LPP_CHANNEL_BATT
        (batt_volts (batt_sum (take_stream 10 (batt s)))) (payload s) /\
    api s1 = api s /\ lora_status s1 = lora_status s.
Proof.
  unfold status_battery, bind.
  destruct (read_batt_loop_run 10 (float_of_double (double_lit 0)) s)
    as [s' [E [Hp [Ha Hl]]]].
  rewrite E. unfold modify. cbn.
  eexists. split; [reflexivity|]. cbn. rewrite Hp.
  repeat split; assumption.
Qed.

(** The link is chosen once; the payload is sent as it stands, or not
    at all. *)
Lemma status_transmit_run (s : State) :
  let enable := lorawan_enable (g_lorawan_settings (api s)) in
  let joined := g_lpwan_has_joined (api s) in
  let packet := (getBuffer (payload s), getSize (payload s)) in
  exists s2 t,
    status_transmit s = Returned tt s2 t /\
    payload s2 = payload s /\ samples_of t = [] /\
    sent_of t = (if enable then if joined then [packet] else [] else [packet]) /\
    count is_send_lora_packet t = (if enable && joined then 1%nat else 0%nat) /\
    count is_send_p2p_packet t = (if enable then 0%nat else 1%nat).
Proof.
  unfold status_transmit. run_unfold. run_branches;
    eexists; eexists; (split; [reflexivity|]); repeat split.
Qed.

Lemma prefix_trace_app {A : Type} (t1 t2 : list Event) (o : Outcome A) :
  prefix_trace t1 (prefix_trace t2 o) = prefix_trace (t1 ++ t2) o.
Proof. destruct o; simpl; rewrite ?app_assoc; reflexivity. Qed.

Lemma app_event_handler_set (s : State) :
  bit_set STATUS s -> app_event_handler s = status_event s.
Proof.
  intros H. unfold app_event_handler, bind, gets. unfold bit_set in H.
  rewrite H. simpl. apply prefix_trace_nil.
Qed.

Lemma addRecord_fits (r : LppRecord) (p : WisCayenne) :
  record_size r <= maxsize p ->
  addRecord r (reset p) = {| maxsize := maxsize p; records := [r] |}.
Proof.
  intros H. unfold addRecord, reset, getSize. simpl.
  destruct (Z.leb_spec (record_size r) (maxsize p)); [reflexivity | lia].
Qed.

(** The block up to the choice of the link: the bit is cleared, the
    payload emptied, ten samples read, their voltage added. *)
Lemma status_event_run (s : State) :
  let samples := take_stream 10 (batt s) in
  let t0 := mylog_events (g_ble_uart_is_connected (api s)) "APP" "Timer wakeup" []
            ++ [EDigitalWrite WB_IO2 true] in
  exists s0 s1,
    status_prepare (after_clear N_STATUS s) = Returned tt s0 t0 /\
    payload s0 = reset (payload s) /\
    status_battery s0 = Returned tt s1 (map ERead_batt samples) /\
    payload s1 =
      addVoltage LPP_CHANNEL_BATT (batt_volts (batt_sum samples)) (reset (payload s)) /\
    api s1 = api s /\ lora_status s1 = lora_status s /\
    status_event s = prefix_trace (t0 ++ map ERead_batt samples) (status_transmit s1).
Proof.
  intros samples t0.
  destruct (status_prepare_run (after_clear N_STATUS s))
    as [s0 [E0 [Hp0 [Ha0 [Hb0 Hl0]]]]].
  destruct (status_battery_run s0) as [s1 [E1 [Hp1 [Ha1 Hl1]]]].
  rewrite Hb0 in E1, Hp1. rewrite Hp0 in Hp1.
  exists s0, s1.
  split; [apply E0|]. split; [assumption|]. split; [assumption|].
  split; [assumption|].
  split; [rewrite Ha1; exact Ha0|]. split; [rewrite Hl1; exact Hl0|].
  unfold status_event, status_body, clear_event.
  unfold bind at 1. unfold modify. rewrite prefix_trace_nil.
  unfold bind at 1. rewrite E0. cbv beta iota.
  unfold bind at 1. rewrite E1. cbv beta iota.
  apply prefix_trace_app.
Qed.

Lemma reads_only (samples : list float) :
  let t := map ERead_batt samples in
  samples_of t = samples /\ sent_of t = [] /\
  count is_send_lora_packet t = 0%nat /\ count is_send_p2p_packet t = 0%nat.
Proof.
  induction samples as [| v l [IH1 [IH2 [IH3 IH4]]]]; simpl.
  - repeat split.
  - repeat split; try assumption. unfold samples_of in *. simpl. f_equal. exact IH1.
Qed.

(** One status event, from the test of the bit to the return. *)
Lemma app_event_handler_run (s : State) :
  bit_set STATUS s ->
  let enable := lorawan_enable (g_lorawan_settings (api s)) in
  let joined := g_lpwan_has_joined (api s) in
  exists s' t,
    app_event_handler s = Returned tt s' t /\
    samples_of t = take_stream 10 (batt s) /\
    payload s' =
      addVoltage LPP_CHANNEL_BATT (batt_volts (batt_sum (take_stream 10 (batt s))))
        (reset (payload s)) /\
    sent_of t =
      (if enable then if joined then [(getBuffer (payload s'), getSize (payload s'))] else []
       else [(getBuffer (payload s'), getSize (payload s'))]) /\
    count is_send_lora_packet t = (if enable && joined then 1%nat else 0%nat) /\
    count is_send_p2p_packet t = (if enable then 0%nat else 1%nat).
Proof.
  intros Hset enable joined.
  destruct (status_event_run s) as [s0 [s1 [_ [_ [_ [Hp1 [Ha1 [_ E]]]]]]]].
  destruct (status_transmit_run s1) as [s2 [t2 [E2 [Hp2 [Hs2 [Hsent [Hl Hp]]]]]]].
  rewrite Ha1 in Hsent, Hl, Hp. fold enable joined in Hsent, Hl, Hp.
  destruct (reads_only (take_stream 10 (batt s))) as [R1 [R2 [R3 R4]]].
  exists s2, (((mylog_events (g_ble_uart_is_connected (api s)) "APP" "Timer wakeup" []
               ++ [EDigitalWrite WB_IO2 true])
              ++ map ERead_batt (take_stream 10 (batt s))) ++ t2).
  split; [rewrite (app_event_handler_set Hset), E, E2; reflexivity|].
  unfold samples_of, sent_of in *. rewrite !count_app, !flat_map_app.
  fold samples_of sent_of in *.
  rewrite R1, R2, R3, R4, Hs2, Hsent, Hl, Hp, Hp2.
  rewrite <- Hp1.
  destruct (g_ble_uart_is_connected (api s)); simpl; rewrite ?app_nil_r;
    repeat split.
Qed.

(** C4: a status event handled while [lorawan_enable] is false makes
    exactly one call of [send_p2p_packet], with the buffer and the size
    of the payload as encoded in this cycle (the voltage of the ten
    samples added to the emptied buffer), and no call of
    [send_lora_packet]. *)
Theorem status_p2p_when_lorawan_disabled (s : State) :
  bit_set STATUS s ->
  lorawan_enable (g_lorawan_settings (api s)) = false ->
  exists s' t,
    app_event_handler s = Returned tt s' t /\
    count is_send_p2p_packet t = 1%nat /\
    count is_send_lora_packet t = 0%nat /\
    sent_of t = [(getBuffer (payload s'), getSize (payload s'))] /\
    payload s' =
      addVoltage LPP_CHANNEL_BATT (batt_volts (batt_sum (samples_of t)))
        (reset (payload s)).
Proof.
  intros Hset He.
  destruct (app_event_handler_run Hset) as [s' [t [E [Hs [Hp [Hsent [Hl Hp2p]]]]]]].
  rewrite He in Hsent, Hl, Hp2p. simpl in Hl.
  exists s', t. rewrite Hs. repeat split; assumption.
Qed.

(** C5: a status event handled while [lorawan_enable] is true and
    [g_lpwan_has_joined] is false makes no call of [send_lora_packet]
    and no call of [send_p2p_packet]. *)
Theorem status_skips_when_not_joined (s : State) :
  bit_set STATUS s ->
  lorawan_enable (g_lorawan_settings (api s)) = true ->
  g_lpwan_has_joined (api s) = false ->
  exists s' t,
    app_event_handler s = Returned tt s' t /\
    count is_send_lora_packet t = 0%nat /\
    count is_send_p2p_packet t = 0%nat /\
    sent_of t = [].
Proof.
  intros Hset He Hj.
  destruct (app_event_handler_run Hset) as [s' [t [E [Hs [Hp [Hsent [Hl Hp2p]]]]]]].
  rewrite He, Hj in *. simpl in Hl.
  exists s', t. repeat split; assumption.
Qed.

(** C7: in the handling of a status event the payload buffer is
    emptied before the first sample is read, whatever it held; when the
    link is chosen it holds exactly one record, the battery voltage; no
    send call is made before that, and every send call made carries
    that one record. *)
Theorem payload_reset_then_one_record (s : State) :
  bit_set STATUS s ->
  reading_fits s ->
  let reading :=
    voltage_record LPP_CHANNEL_BATT (batt_volts (batt_sum (take_stream 10 (batt s)))) in
  exists s0 t0 s1 t1,
    status_prepare (after_clear N_STATUS s) = Returned tt s0 t0 /\
    records (payload s0) = [] /\
    status_battery s0 = Returned tt s1 t1 /\
    samples_of t0 = [] /\ sent_of (t0 ++ t1) = [] /\
    records (payload s1) = [reading] /\
    app_event_handler s = prefix_trace (t0 ++ t1) (status_transmit s1) /\
    exists s',
      final_state (app_event_handler s) = Some s' /\
      records (payload s') = [reading] /\
      forall packet, In packet (sent_of (trace_of (app_event_handler s))) ->
                     packet = (lpp_channel reading :: lpp_type reading :: lpp_data reading,
                               record_size reading).
Proof.
  intros Hset Hfit reading.
  destruct (status_event_run s) as [s0 [s1 [E0 [Hp0 [E1 [Hp1 [Ha1 [_ E]]]]]]]].
  unfold addVoltage in Hp1. rewrite (addRecord_fits _ _ Hfit) in Hp1.
  fold reading in Hp1.
  destruct (reads_only (take_stream 10 (batt s))) as [_ [R2 _]].
  exists s0. eexists. exists s1. eexists.
  split; [exact E0|]. split; [rewrite Hp0; reflexivity|].
  split; [exact E1|].
  split; [destruct (g_ble_uart_is_connected (api s)); reflexivity|].
  split.
  { unfold sent_of in *. rewrite !flat_map_app. fold sent_of in *. rewrite R2.
    destruct (g_ble_uart_is_connected (api s)); reflexivity. }
  split; [rewrite Hp1; reflexivity|].
  split; [rewrite (app_event_handler_set Hset); exact E|].
  destruct (app_event_handler_run Hset) as [s' [t [Er [_ [Hp [Hsent _]]]]]].
  unfold addVoltage in Hp. rewrite (addRecord_fits _ _ Hfit) in Hp.
  fold reading in Hp.
  exists s'. rewrite Er. simpl. split; [reflexivity|].
  split; [rewrite Hp; reflexivity|].
  intros packet Hin. rewrite Hsent, Hp in Hin.
  assert (Hpk : (getBuffer {| maxsize := maxsize (payload s); records := [reading] |},
                 getSize {| maxsize := maxsize (payload s); records := [reading] |})
                = (lpp_channel reading :: lpp_type reading :: lpp_data reading,
                   record_size reading)).
  { unfold getBuffer, getSize. simpl. rewrite app_nil_r, Z.add_0_r. reflexivity. }
  rewrite Hpk in Hin.
  destruct (lorawan_enable _); [destruct (g_lpwan_has_joined _)|];
    simpl in Hin; intuition.
Qed.
End Status.

(** ** Rounding *)

Section Rounding.
#[local] Unset Implicit Arguments.

Lemma pow2_pos (e : Z) : (0 < pow2 e)%Q.
Proof. apply Qpower_0_lt. reflexivity. Qed.

Lemma pow2_plus (a b : Z) : (pow2 (a + b) == pow2 a * pow2 b)%Q.
Proof. apply Qpower_plus. discriminate. Qed.

Lemma pow2_Z (a : Z) : 0 <= a -> (pow2 a == inject_Z (2 ^ a))%Q.
Proof. intros H. unfold pow2. rewrite Zpower_Qpower by exact H. reflexivity. Qed.

Lemma pow2_half (e : Z) : (pow2 e * (1 # 2) == pow2 (e - 1))%Q.
Proof.
  replace e with ((e - 1) + 1) at 1 by lia. rewrite pow2_plus.
  change (pow2 1) with 2%Q. field.
Qed.

Lemma Qabs_frac (x : Q) : (Qabs x == inject_Z (Z.abs (Qnum x)) / inject_Z (QDen x))%Q.
Proof.
  destruct x as [n d]. unfold Qabs. simpl Qnum. simpl Qden.
  rewrite Qmake_Qdiv. reflexivity.
Qed.

Lemma mag_lower (x : Q) : ~ (x == 0)%Q -> (pow2 (mag x - 1) <= Qabs x)%Q.
Proof.
  intros Hx. unfold mag.
  set (n := Z.abs (Qnum x)). set (d := QDen x).
  destruct (Qle_bool (pow2 (Z.log2 n - Z.log2 d)) (Qabs x)) eqn:Hb.
  - replace (Z.log2 n - Z.log2 d + 1 - 1) with (Z.log2 n - Z.log2 d) by lia.
    apply Qle_bool_imp_le. exact Hb.
  - assert (Hn : 0 < n).
    { unfold n. destruct x as [[| p | p] dd]; simpl; try lia.
      exfalso. apply Hx. reflexivity. }
    assert (Hd : 0 < d) by (unfold d; lia).
    destruct (Z.log2_spec n Hn) as [Hn1 _].
    destruct (Z.log2_spec d Hd) as [_ Hd2].
    pose proof (Z.log2_nonneg n) as Ha. pose proof (Z.log2_nonneg d) as Hb'.
    replace (Z.log2 n - Z.log2 d - 1) with (Z.log2 n + - (Z.succ (Z.log2 d))) by lia.
    rewrite pow2_plus. unfold pow2 at 2. rewrite Qpower_opp.
    fold (pow2 (Z.succ (Z.log2 d))).
    rewrite !pow2_Z by lia. rewrite Qabs_frac. fold n d.
    apply Qle_shift_div_l; [rewrite <- (Zlt_Qlt 0); exact Hd|].
    assert (H2 : 0 < 2 ^ Z.succ (Z.log2 d)) by (apply Z.pow_pos_nonneg; lia).
    assert (H3 : 0 < 2 ^ Z.log2 n) by (apply Z.pow_pos_nonneg; lia).
    setoid_replace (inject_Z (2 ^ Z.log2 n) * / inject_Z (2 ^ Z.succ (Z.log2 d)) * inject_Z d)%Q
      with (inject_Z (2 ^ Z.log2 n) * inject_Z d / inject_Z (2 ^ Z.succ (Z.log2 d)))%Q
      by (field; intros H; apply (Qlt_irrefl 0); rewrite <- H at 2;
          rewrite <- (Zlt_Qlt 0); exact H2).
    apply Qle_shift_div_r; [rewrite <- (Zlt_Qlt 0); exact H2|].
    rewrite <- !inject_Z_mult, <- Zle_Qle. nia.
Qed.

Lemma mag_upper (x : Q) : ~ (x == 0)%Q -> (Qabs x < pow2 (mag x))%Q.
Proof.
  intros Hx. unfold mag.
  set (n := Z.abs (Qnum x)). set (d := QDen x).
  destruct (Qle_bool (pow2 (Z.log2 n - Z.log2 d)) (Qabs x)) eqn:Hb.
  - assert (Hn : 0 < n).
    { unfold n. destruct x as [[| p | p] dd]; simpl; try lia.
      exfalso. apply Hx. reflexivity. }
    assert (Hd : 0 < d) by (unfold d; lia).
    destruct (Z.log2_spec n Hn) as [_ Hn2].
    destruct (Z.log2_spec d Hd) as [Hd1 _].
    pose proof (Z.log2_nonneg n) as Ha. pose proof (Z.log2_nonneg d) as Hb'.
    replace (Z.log2 n - Z.log2 d + 1) with (Z.succ (Z.log2 n) + - Z.log2 d) by lia.
    rewrite pow2_plus. unfold pow2 at 2. rewrite Qpower_opp.
    fold (pow2 (Z.log2 d)).
    rewrite !pow2_Z by lia. rewrite Qabs_frac. fold n d.
    assert (H2 : 0 < 2 ^ Z.log2 d) by (apply Z.pow_pos_nonneg; lia).
    apply Qlt_shift_div_r; [rewrite <- (Zlt_Qlt 0); exact Hd|].
    setoid_replace (inject_Z (2 ^ Z.succ (Z.log2 n)) * / inject_Z (2 ^ Z.log2 d) * inject_Z d)%Q
      with (inject_Z (2 ^ Z.succ (Z.log2 n)) * inject_Z d / inject_Z (2 ^ Z.log2 d))%Q
      by (field; intros H; apply (Qlt_irrefl 0); rewrite <- H at 2;
          rewrite <- (Zlt_Qlt 0); exact H2).
    apply Qlt_shift_div_l; [rewrite <- (Zlt_Qlt 0); exact H2|].
    rewrite <- !inject_Z_mult, <- Zlt_Qlt. nia.
  - apply Qnot_le_lt. intros H. apply Qle_bool_iff in H. congruence.
Qed.

Lemma rne_error (y : Q) : (Qabs (inject_Z (rne y) - y) <= 1 # 2)%Q.
Proof.
  unfold rne. pose proof (Qfloor_le y) as H1. pose proof (Qlt_floor y) as H2.
  rewrite inject_Z_plus in H2. change (inject_Z 1) with 1%Q in H2.
  apply Qabs_Qle_condition.
  destruct (Qcompare_spec (y - inject_Z (Qfloor y)) (1 # 2)) as [H | H | H].
  - destruct (Z.even (Qfloor y)); rewrite ?inject_Z_plus;
      change (inject_Z 1) with 1%Q; split; lra.
  - split; lra.
  - rewrite inject_Z_plus. change (inject_Z 1) with 1%Q. split; lra.
Qed.

Lemma round_error (fmt : BinaryFormat) (x : Q) :
  (Qabs (round fmt x - x) <= pow2 (- prec fmt) * Qabs x + pow2 (emin fmt - 1))%Q.
Proof.
  unfold round. destruct (Qeq_bool x 0) eqn:H0.
  - apply Qeq_bool_eq in H0. rewrite H0.
    setoid_replace (0 - 0)%Q with 0%Q by ring. simpl Qabs.
    pose proof (pow2_pos (emin fmt - 1)). lra.
  - apply Qeq_bool_neq in H0.
    set (e := Z.max (mag x - prec fmt) (emin fmt)).
    rewrite Qred_correct.
    pose proof (pow2_pos e) as HP.
    pose proof (rne_error (x / pow2 e)) as Hr.
    assert (Hd : (Qabs (inject_Z (rne (x / pow2 e)) * pow2 e - x) <= pow2 (e - 1))%Q).
    { setoid_replace (inject_Z (rne (x / pow2 e)) * pow2 e - x)%Q
        with ((inject_Z (rne (x / pow2 e)) - x / pow2 e) * pow2 e)%Q
        by (field; lra).
      rewrite Qabs_Qmult, (Qabs_pos (pow2 e)) by lra.
      rewrite <- pow2_half.
      rewrite (Qmult_comm (pow2 e)). apply Qmult_le_compat_r; [exact Hr | lra]. }
    eapply Qle_trans; [exact Hd|].
    pose proof (mag_lower x H0) as Hm.
    pose proof (pow2_pos (- prec fmt)) as Hu.
    pose proof (pow2_pos (emin fmt - 1)) as He.
    pose proof (Qabs_nonneg x) as Hx.
    destruct (Z.max_spec (mag x - prec fmt) (emin fmt)) as [[_ E] | [_ E]];
      fold e in E; rewrite E.
    + assert (0 <= pow2 (- prec fmt) * Qabs x)%Q by (apply Qmult_le_0_compat; lra).
      lra.
    + replace (mag x - prec fmt - 1) with (- prec fmt + (mag x - 1)) by lia.
      rewrite pow2_plus.
      assert (pow2 (- prec fmt) * pow2 (mag x - 1) <= pow2 (- prec fmt) * Qabs x)%Q.
      { rewrite !(Qmult_comm (pow2 (- prec fmt))).
        apply Qmult_le_compat_r; [exact Hm | lra]. }
      lra.
Qed.

Lemma binary32_fits : fits binary32.
Proof. repeat split; apply Qle_bool_imp_le; vm_compute; reflexivity. Qed.

Lemma binary64_fits : fits binary64.
Proof. repeat split; apply Qle_bool_imp_le; vm_compute; reflexivity. Qed.

Lemma eta_pos : (0 < eta)%Q.
Proof. apply pow2_pos. Qed.

Lemma eta_small : (16777216 * eta <= 1)%Q.
Proof. apply Qle_bool_imp_le. vm_compute. reflexivity. Qed.

Lemma pow2_128_big : (4294967296 <= pow2 128)%Q.
Proof. apply Qle_bool_imp_le. vm_compute. reflexivity. Qed.

Lemma round_near (fmt : BinaryFormat) (y Y c a : Q) :
  fits fmt ->
  (0 <= Y <= 1073741824)%Q ->
  (0 <= c <= 1)%Q ->
  (0 <= a <= 16777216 * eta)%Q ->
  near c a y Y ->
  exists r, to_ieee fmt y = Finite r /\ near (c + 2 * u32) (a + 2 * eta) r Y.
Proof.
  intros [Hu [He Hmax]] [HY0 HY1] [Hc0 Hc1] [Ha0 Ha1] [Hlo Hhi].
  pose proof eta_pos as Heta. pose proof eta_small as Hsmall.
  pose proof pow2_128_big as Hbig.
  assert (HcY : (0 <= c * Y /\ c * Y <= Y)%Q).
  { split; [apply Qmult_le_0_compat; assumption|].
    setoid_replace Y with (1 * Y)%Q at 2 by ring.
    apply Qmult_le_compat_r; assumption. }
  destruct HcY as [HcY0 HcY1].
  assert (Hy : (Qabs y <= Y + (c * Y + a))%Q).
  { apply Qabs_Qle_condition. split; lra. }
  pose proof (Qabs_nonneg y) as Hy0.
  pose proof (round_error fmt y) as Hr.
  assert (Hp : (pow2 (- prec fmt) * Qabs y <= u32 * Qabs y)%Q).
  { apply Qmult_le_compat_r; assumption. }
  assert (Hr' : (Qabs (round fmt y - y) <= 2 * u32 * Y + 2 * eta)%Q).
  { eapply Qle_trans; [exact Hr|]. unfold u32 in *. lra. }
  apply Qabs_Qle_condition in Hr'. destruct Hr' as [Hr1 Hr2].
  exists (round fmt y). split.
  - unfold to_ieee.
    destruct (Qle_bool (pow2 (emax fmt)) (Qabs (round fmt y))) eqn:Hov; [|reflexivity].
    exfalso. apply Qle_bool_imp_le in Hov.
    assert (Hb : (Qabs (round fmt y) <= 4294967295)%Q).
    { apply Qabs_Qle_condition. unfold u32 in *. split; lra. }
    lra.
  - unfold near. unfold u32 in *. split; lra.
Qed.

Lemma near_start : near 0 0 0 0.
Proof. unfold near. split; lra. Qed.

Lemma sum_near (qs : list Q) : forall acc A c a : Q,
  Forall (fun q => 0 <= q)%Q qs ->
  (0 <= A)%Q ->
  (A + sumQ qs <= 1073741824)%Q ->
  (0 <= c)%Q ->
  (c + 2 * u32 * inject_Z (Z.of_nat (List.length qs)) <= 1)%Q ->
  (0 <= a)%Q ->
  (a + 2 * eta * inject_Z (Z.of_nat (List.length qs)) <= 16777216 * eta)%Q ->
  near c a acc A ->
  exists r,
    fold_left (ieee_add binary32) (map Finite qs) (Finite acc) = Finite r /\
    near (c + 2 * u32 * inject_Z (Z.of_nat (List.length qs)))
         (a + 2 * eta * inject_Z (Z.of_nat (List.length qs)))
         r (A + sumQ qs).
Proof.
  pose proof eta_pos as Heta.
  induction qs as [| q qs IH]; intros acc A c a Hqs HA Hmax Hc0 Hc1 Ha0 Ha1 Hnear.
  - exists acc. split; [reflexivity|]. unfold near in *. simpl in *.
    change (inject_Z 0) with 0%Q. split; lra.
  - inversion Hqs as [| ? ? Hq Hqs']; subst. cbv beta in Hq.
    assert (Hs : (0 <= sumQ qs)%Q).
    { clear -Hqs'. induction Hqs' as [| x l Hx _ IHl]; simpl; [lra|]. cbv beta in Hx. simpl in IHl. lra. }
    assert (Hn : (inject_Z (Z.of_nat (List.length (q :: qs)))
                  == inject_Z (Z.of_nat (List.length qs)) + 1)%Q).
    { simpl List.length. rewrite Nat2Z.inj_succ. unfold Z.succ.
      rewrite inject_Z_plus. reflexivity. }
    assert (Hn0 : (0 <= inject_Z (Z.of_nat (List.length qs)))%Q).
    { rewrite <- (Zle_Qle 0). lia. }
    rewrite Hn in Hc1, Ha1. simpl sumQ in Hmax.
    remember (inject_Z (Z.of_nat (List.length qs))) as n eqn:En. clear En.
    assert (Hcq : (0 <= c * q)%Q) by (apply Qmult_le_0_compat; assumption).
    assert (Hen : (0 <= eta * n)%Q) by (apply Qmult_le_0_compat; lra).
    destruct (@round_near binary32 (acc + q) (A + q) c a binary32_fits)
      as [r1 [E1 Hnear1]].
    { split; lra. }
    { unfold u32 in *. split; lra. }
    { split; lra. }
    { unfold near in *. split; lra. }
    destruct (IH r1 (A + q)%Q (c + 2 * u32)%Q (a + 2 * eta)%Q Hqs')
      as [r [E Hr]]; try (unfold u32 in *; lra).
    { exact Hnear1. }
    exists r. split.
    + simpl. rewrite E1. exact E.
    + unfold near in *. rewrite Hn. simpl sumQ.
      unfold u32 in *. split; lra.
Qed.

Lemma sumQ_bounds (B : Q) (qs : list Q) :
  Forall (fun q => 0 <= q <= B)%Q qs ->
  Forall (fun q => 0 <= q)%Q qs /\
  (0 <= sumQ qs)%Q /\
  (sumQ qs <= B * inject_Z (Z.of_nat (List.length qs)))%Q.
Proof.
  induction 1 as [| q qs [Hq0 Hq1] _ [IH1 [IH2 IH3]]].
  - repeat split; [constructor | simpl; lra | simpl; change (inject_Z 0) with 0%Q; lra].
  - split; [constructor; assumption|].
    simpl List.length. rewrite Nat2Z.inj_succ. unfold Z.succ.
    rewrite inject_Z_plus. change (inject_Z 1) with 1%Q. simpl sumQ. split; lra.
Qed.

Lemma eta_28 : (28 * eta <= pow2 (-145))%Q.
Proof. apply Qle_bool_imp_le. vm_compute. reflexivity. Qed.

Lemma near_div (k : positive) (c a r Y : Q) :
  (0 <= a)%Q -> near c a r Y -> near c a (r / inject_Z (Zpos k)) (Y / inject_Z (Zpos k)).
Proof.
  intros Ha [H1 H2]. unfold near.
  assert (Hk : (0 < inject_Z (Zpos k))%Q) by reflexivity.
  assert (Hk1 : (1 <= inject_Z (Zpos k))%Q) by (rewrite <- (Zle_Qle 1); lia).
  assert (Hi : (0 < / inject_Z (Zpos k))%Q) by (apply Qinv_lt_0_compat; exact Hk).
  assert (Hi1 : (/ inject_Z (Zpos k) <= 1)%Q).
  { apply Qle_shift_inv_r; [exact Hk | lra]. }
  unfold Qdiv. set (i := (/ inject_Z (Zpos k))%Q) in *.
  assert (Hai : (a * i <= a)%Q).
  { setoid_replace a with (a * 1)%Q at 2 by ring.
    rewrite !(Qmult_comm a). apply Qmult_le_compat_r; assumption. }
  assert (G1 : ((Y - (c * Y + a)) * i <= r * i)%Q)
    by (apply Qmult_le_compat_r; [exact H1 | lra]).
  assert (G2 : (r * i <= (Y + (c * Y + a)) * i)%Q)
    by (apply Qmult_le_compat_r; [exact H2 | lra]).
  split; lra.
Qed.

Lemma div_bounds (k : positive) (Y B : Q) :
  (0 <= Y <= B)%Q -> (0 <= Y / inject_Z (Zpos k) <= B)%Q.
Proof.
  intros [H0 H1].
  assert (Hk : (0 < inject_Z (Zpos k))%Q) by reflexivity.
  assert (Hk1 : (1 <= inject_Z (Zpos k))%Q) by (rewrite <- (Zle_Qle 1); lia).
  split.
  - apply Qle_shift_div_l; [exact Hk | lra].
  - apply Qle_shift_div_r; [exact Hk|].
    assert (0 <= B * (inject_Z (Zpos k) - 1))%Q by (apply Qmult_le_0_compat; lra).
    lra.
Qed.

Lemma div_le (k : positive) (Y B : Q) :
  (Y <= B * inject_Z (Zpos k))%Q -> (Y / inject_Z (Zpos k) <= B)%Q.
Proof.
  intros H. apply Qle_shift_div_r; [reflexivity | exact H].
Qed.

Lemma pow2_145_small : (pow2 (-145) <= 1 # 10000)%Q.
Proof. apply Qle_bool_imp_le. vm_compute. reflexivity. Qed.

(** The voltage that the code computes from ten samples, each between
    0 and 2^20 mV: a finite number, and the mean divided by 1000 up to
    the rounding of the fourteen operations. *)
Lemma batt_volts_near (qs : list Q) :
  List.length qs = 10%nat ->
  Forall (fun q => 0 <= q <= 1048576)%Q qs ->
  exists v,
    @batt_volts ieee_arith (@batt_sum ieee_arith (map Finite qs)) = Finite v /\
    (Qabs (v - volts (mean qs)) <= (1 # 524288) * volts (mean qs) + pow2 (-145))%Q /\
    (Qabs (v - volts (mean qs)) <= 1 # 400)%Q.
Proof.
  intros Hlen Hqs. unfold volts, mean. rewrite Hlen.
  change (inject_Z (Z.of_nat 10)) with 10%Q.
  change (@batt_volts ieee_arith (@batt_sum ieee_arith (map Finite qs)))
    with (ieee_convert binary32
            (ieee_div binary64
               (ieee_convert binary64
                  (ieee_div binary32
                     (fold_left (ieee_add binary32) (map Finite qs)
                        (ieee_convert binary32 (to_ieee binary64 (inject_Z 0))))
                     (to_ieee binary32 (inject_Z 10))))
               (to_ieee binary64 (inject_Z 1000)))).
  destruct (@sumQ_bounds 1048576%Q qs Hqs) as [Hpos [Hs0 Hs1]].
  rewrite Hlen in Hs1. change (inject_Z (Z.of_nat 10)) with 10%Q in Hs1.
  pose proof eta_pos as Heta. pose proof eta_small as Hsmall. pose proof eta_28 as H28.
  pose proof pow2_145_small as H145.
  change (ieee_convert binary32 (to_ieee binary64 (inject_Z 0))) with (Finite 0).
  change (to_ieee binary32 (inject_Z 10)) with (Finite 10).
  change (to_ieee binary64 (inject_Z 1000)) with (Finite 1000).
  destruct (@sum_near qs 0%Q 0%Q 0%Q 0%Q Hpos) as [r1 [E1 N1]];
    try (rewrite ?Hlen; change (inject_Z (Z.of_nat 10)) with 10%Q; unfold u32; lra).
  { apply near_start. }
  rewrite Hlen in N1. change (inject_Z (Z.of_nat 10)) with 10%Q in N1.
  rewrite E1. clear E1.
  assert (N1' : near (20 * u32) (20 * eta) r1 (sumQ qs)).
  { unfold near, u32 in *. destruct N1 as [N1a N1b]. split; lra. }
  clear N1.
  assert (HS : (0 <= sumQ qs <= 1073741824)%Q) by (split; lra).
  pose proof (@div_bounds 10 _ _ HS) as HS10.
  pose proof (@div_bounds 1000 _ _ HS10) as HM.
  assert (HS10' : (sumQ qs / inject_Z 10 <= 1048576)%Q).
  { apply div_le. change (inject_Z 10) with 10%Q. lra. }
  assert (HM' : (sumQ qs / inject_Z 10 / inject_Z 1000 <= 1048576 # 1000)%Q).
  { apply div_le. change (inject_Z 1000) with 1000%Q. lra. }
  assert (Ha1 : (0 <= 20 * eta)%Q) by lra.
  pose proof (@near_div 10 _ _ _ _ Ha1 N1') as N1d.
  change (inject_Z 10) with 10%Q in *. change (inject_Z 1000) with 1000%Q in *.
  set (S10 := (sumQ qs / 10)%Q) in *.
  change (ieee_div binary32 (Finite r1) (Finite 10)) with (to_ieee binary32 (r1 / 10)).
  destruct (@round_near binary32 (r1 / 10) S10 (20 * u32) (20 * eta)
              binary32_fits) as [r2 [E2 N2]];
    try (unfold u32; split; lra); try assumption.
  rewrite E2. clear E2.
  change (ieee_convert binary64 (Finite r2)) with (to_ieee binary64 r2).
  destruct (@round_near binary64 r2 S10 (20 * u32 + 2 * u32)
              (20 * eta + 2 * eta) binary64_fits) as [r3 [E3 N3]];
    try (unfold u32; split; lra); try assumption.
  rewrite E3. clear E3.
  assert (Ha3 : (0 <= 20 * eta + 2 * eta + 2 * eta)%Q) by lra.
  pose proof (@near_div 1000 _ _ _ _ Ha3 N3) as N3d.
  change (inject_Z 1000) with 1000%Q in *.
  set (M := (S10 / 1000)%Q) in *.
  change (ieee_div binary64 (Finite r3) (Finite 1000)) with (to_ieee binary64 (r3 / 1000)).
  destruct (@round_near binary64 (r3 / 1000) M
              (20 * u32 + 2 * u32 + 2 * u32) (20 * eta + 2 * eta + 2 * eta)
              binary64_fits) as [r4 [E4 N4]];
    try (unfold u32; split; lra); try assumption.
  rewrite E4. clear E4.
  change (ieee_convert binary32 (Finite r4)) with (to_ieee binary32 r4).
  destruct (@round_near binary32 r4 M
              (20 * u32 + 2 * u32 + 2 * u32 + 2 * u32)
              (20 * eta + 2 * eta + 2 * eta + 2 * eta)
              binary32_fits) as [v [E5 N5]];
    try (unfold u32; split; lra); try assumption.
  exists v. split; [exact E5|].
  unfold near, u32 in N5. destruct N5 as [N5a N5b].
  destruct HM as [HM0 HM1].
  split; apply Qabs_Qle_condition; split; lra.
Qed.
End Rounding.

(** ** The voltage in the payload *)

Section BatteryVoltage.
#[local] Existing Instance ieee_arith.
Context {API : @WisBlockApi ieee_arith}.

(** C6: in the handling of a status event the sampler is read ten
    times, and the voltage handed to the encoder for the one record of
    the payload is the arithmetic mean of those ten samples divided by
    1000, up to the rounding of the code's arithmetic: the sum and the
    division by 10 in binary32, the division by 1000.0 in binary64, the
    result converted to binary32.  For samples between 0 and 2^20 mV the
    relative error is at most 2^-19 (and 2^-145 absolute), less than a
    quarter of the 0.01 V step of a Cayenne LPP voltage; the encoder does
    its own rounding on that value. *)
Theorem encoded_voltage_is_mean_of_ten (s : State) (millivolts : list Q) :
  bit_set STATUS s ->
  reading_fits s ->
  take_stream 10 (batt s) = map Finite millivolts ->
  Forall (fun q => 0 <= q <= 1048576)%Q millivolts ->
  exists s' t v,
    app_event_handler s = Returned tt s' t /\
    samples_of t = map Finite millivolts /\
    records (payload s') =
      [{| lpp_channel := LPP_CHANNEL_BATT;
          lpp_type := LPP_VOLTAGE;
          lpp_data := lpp_voltage_bytes (Finite v) |}] /\
    (Qabs (v - volts (mean millivolts))
     <= (1 # 524288) * volts (mean millivolts) + pow2 (-145))%Q /\
    (Qabs (v - volts (mean millivolts)) <= 1 # 400)%Q.
Proof.
  intros Hset Hfit Hbatt Hrange.
  assert (Hlen : List.length millivolts = 10%nat).
  { rewrite <- (length_map Finite), <- Hbatt. unfold take_stream.
    rewrite length_map, length_seq. reflexivity. }
  destruct (batt_volts_near millivolts Hlen Hrange) as [v [Ev [Hrel Habs]]].
  destruct (app_event_handler_run Hset) as [s' [t [E [Hs [Hp _]]]]].
  exists s', t, v. split; [exact E|]. split; [rewrite Hs; exact Hbatt|].
  split; [|split; assumption].
  rewrite Hp. unfold addVoltage. rewrite (addRecord_fits _ _ Hfit).
  unfold voltage_record. rewrite Hbatt, Ev. reflexivity.
Qed.
End BatteryVoltage.

(** ** The BLE block *)

Section Ble.
Context {FA : FloatArith} {API : WisBlockApi}.

Lemma bind_gets {A B : Type} (f : State -> A) (k : A -> M B) (s : State) :
  bind (gets f) k s = k (f s) s.
Proof. unfold bind, gets. apply prefix_trace_nil. Qed.

Lemma bind_modify {B : Type} (f : State -> State) (k : unit -> M B) (s : State) :
  bind (modify f) k s = k tt (f s).
Proof. unfold bind, modify. apply prefix_trace_nil. Qed.

Lemma bind_ret {A B : Type} (a : A) (k : A -> M B) (s : State) :
  bind (ret a) k s = k a s.
Proof. unfold bind, ret. apply prefix_trace_nil. Qed.

Lemma bind_call {B : Type} (e : Event) (k : unit -> M B) (s : State) :
  bind (call e) k s = prefix_trace [e] (k tt (irq s)).
Proof. reflexivity. Qed.


(** With fuel for every byte the loop ends: it has forwarded the bytes
    in order, each followed by [delay(5)], and the FIFO is empty.
    Whatever holds of every API call and of a read holds of the loop. *)
Lemma ble_drain_sat (R : Rel) {MR : Monoidal R} :
  (forall s e, R s [e] (irq s)) ->
  (forall s rx, R s [] (set_ble_rx rx s)) ->
  forall (fuel : nat) (s : State),
    (List.length (ble_rx s) < fuel)%nat ->
    exists s',
      ble_drain fuel s = Returned tt s' (drain_events (ble_rx s)) /\
      ble_rx s' = [] /\
      R s (drain_events (ble_rx s)) s'.
Proof.
  intros Hcall Hread. induction fuel as [| fuel IH]; intros s Hlt; [lia|].
  simpl ble_drain. unfold g_ble_uart_available. rewrite bind_gets.
  destruct (ble_rx s) as [| c rest] eqn:Erx.
  - exists s. simpl. repeat split; [assumption | apply rel_nil].
  - change (0 <? Z.of_nat (List.length (c :: rest))) with true. cbv iota.
    unfold g_ble_uart_read. rewrite bind_assoc, bind_gets, Erx.
    rewrite bind_assoc, bind_modify, bind_ret.
    unfold at_serial_input, delay. rewrite !bind_call.
    destruct (IH (irq (irq (set_ble_rx rest s)))) as [s' [E [Hrx HR]]].
    { simpl in *. lia. }
    change (ble_rx (irq (irq (set_ble_rx rest s)))) with rest in E, HR.
    rewrite E. exists s'. simpl. repeat split; [assumption|].
    change (EAt_serial_input (u8 c) :: EDelay 5 :: drain_events rest)
      with ([] ++ [EAt_serial_input (u8 c)] ++ [EDelay 5] ++ drain_events rest).
    eapply rel_app; [apply (Hread s rest)|].
    eapply rel_app; [apply Hcall|].
    eapply rel_app; [apply Hcall|]. exact HR.
Qed.

Lemma ble_data_body_run (R : Rel) {MR : Monoidal R} :
  (forall s e, R s [e] (irq s)) ->
  (forall s rx, R s [] (set_ble_rx rx s)) ->
  forall (fuel : nat) (s : State),
    (List.length (ble_rx s) < fuel)%nat ->
    exists s',
      ble_data_body fuel s =
        Returned tt s' (drain_events (ble_rx s) ++ [EAt_serial_input 10]) /\
      ble_rx s' = [] /\
      R s (drain_events (ble_rx s) ++ [EAt_serial_input 10]) s'.
Proof.
  intros Hcall Hread fuel s Hlt.
  destruct (ble_drain_sat Hcall Hread s Hlt) as [s1 [E [Hrx HR]]].
  unfold ble_data_body, bind. rewrite E.
  exists (irq s1). split; [reflexivity|]. split; [exact Hrx|].
  eapply rel_app; [exact HR | apply Hcall].
Qed.

Lemma MYLOG_run (tag fmt : string) (args : list LogArg) (s : State) :
  MYLOG tag fmt args s =
    Returned tt (after_mylog s)
      (mylog_events (g_ble_uart_is_connected (api s)) tag fmt args).
Proof.
  unfold MYLOG, after_mylog. rewrite bind_call, bind_gets. simpl.
  destruct (g_ble_uart_is_connected (api s)); reflexivity.
Qed.

(** The BLE handler with the link enabled and the bit set: the log
    line, the clear, the loop and the terminator. *)
Lemma ble_data_handler_split (fuel : nat) (s : State) :
  g_enable_ble (api s) = true ->
  bit_set BLE_DATA s ->
  ble_data_handler fuel s =
    prefix_trace (mylog_events (g_ble_uart_is_connected (api s)) "AT" "RECEIVED BLE" [])
      (ble_data_body fuel (after_clear N_BLE_DATA (after_mylog s))).
Proof.
  intros He Hset. unfold ble_data_handler. rewrite bind_gets, He. simpl when.
  rewrite bind_gets. unfold bit_set in Hset. rewrite Hset. simpl when.
  unfold ble_data_event, bind at 1. rewrite MYLOG_run.
  unfold clear_event. rewrite bind_modify. reflexivity.
Qed.

Lemma at_input_of_drain (rx : list Z) :
  at_input_of (drain_events rx) = map u8 rx /\
  count is_at_serial_input (drain_events rx) = List.length rx.
Proof.
  induction rx as [| c rx [IH1 IH2]]; [split; reflexivity|].
  split.
  - unfold at_input_of in *. simpl. f_equal. exact IH1.
  - unfold count in *. simpl. f_equal. exact IH2.
Qed.

Lemma map_u8_bytes (rx : list Z) :
  Forall (fun c => 0 <= c < 256) rx -> map u8 rx = rx.
Proof.
  induction 1 as [| c rx Hc _ IH]; simpl; [reflexivity|].
  rewrite IH. unfold u8. rewrite Z.mod_small by exact Hc. reflexivity.
Qed.

(** C9: a link-data event handled while the link is enabled, with N
    bytes waiting in the BLE UART: the handler returns; it has given
    [at_serial_input] exactly those N bytes, one call per byte and in
    their order, and then the one byte 10, the line feed; the FIFO is
    empty. *)
Theorem ble_forwards_bytes_then_newline (fuel : nat) (s : State) :
  g_enable_ble (api s) = true ->
  bit_set BLE_DATA s ->
  (List.length (ble_rx s) < fuel)%nat ->
  exists s' t,
    ble_data_handler fuel s = Returned tt s' t /\
    t = mylog_events (g_ble_uart_is_connected (api s)) "AT" "RECEIVED BLE" []
        ++ drain_events (ble_rx s) ++ [EAt_serial_input 10] /\
    at_input_of t = map u8 (ble_rx s) ++ [10] /\
    (Forall (fun c => 0 <= c < 256) (ble_rx s) -> at_input_of t = ble_rx s ++ [10]) /\
    count is_at_serial_input t = S (List.length (ble_rx s)) /\
    ble_rx s' = [].
Proof.
  intros He Hset Hlt.
  rewrite (ble_data_handler_split fuel He Hset).
  destruct (ble_data_body_run (R:=keeps send_fail)
              (fun s e => eq_refl) (fun s rx => eq_refl) (fuel:=fuel)
              (after_clear N_BLE_DATA (after_mylog s))) as [s' [E [Hrx _]]].
  { unfold after_mylog. destruct (g_ble_uart_is_connected (api s)); exact Hlt. }
  replace (ble_rx (after_clear N_BLE_DATA (after_mylog s))) with (ble_rx s) in E
    by (unfold after_mylog; destruct (g_ble_uart_is_connected (api s)); reflexivity).
  rewrite E. eexists. eexists. split; [reflexivity|]. split; [reflexivity|].
  destruct (at_input_of_drain (ble_rx s)) as [H1 H2].
  assert (Hin : at_input_of
                  (mylog_events (g_ble_uart_is_connected (api s)) "AT" "RECEIVED BLE" []
                   ++ drain_events (ble_rx s) ++ [EAt_serial_input 10])
                = map u8 (ble_rx s) ++ [10]).
  { unfold at_input_of in *. rewrite !flat_map_app, H1.
    destruct (g_ble_uart_is_connected (api s)); reflexivity. }
  split; [exact Hin|]. split; [|split; [|exact Hrx]].
  - intros Hbytes. rewrite Hin, (map_u8_bytes Hbytes). reflexivity.
  - rewrite !count_app, H2.
    destruct (g_ble_uart_is_connected (api s)); unfold count; simpl; lia.
Qed.

(** C10: with the link disabled ([g_enable_ble] false) the BLE handler
    returns at once, for a flag word with the BLE_DATA bit set as for
    any other: no call is made, so no byte and no terminator reaches
    [at_serial_input]; no global changes, so the bit stays set. *)
Theorem ble_disabled_changes_nothing (fuel : nat) (s : State) :
  g_enable_ble (api s) = false ->
  bit_set BLE_DATA s ->
  ble_data_handler fuel s = Returned tt s [] /\
  at_input_of (trace_of (ble_data_handler fuel s)) = [] /\
  (forall s', final_state (ble_data_handler fuel s) = Some s' -> bit_set BLE_DATA s').
Proof.
  intros He Hset.
  assert (E : ble_data_handler fuel s = Returned tt s []).
  { unfold ble_data_handler. rewrite bind_gets, He. reflexivity. }
  rewrite E. split; [reflexivity|]. split; [reflexivity|].
  intros s' H. simpl in H. injection H as <-. exact Hset.
Qed.
End Ble.

(** ** The event bits *)

Section EventFlags.
Context {FA : FloatArith} {API : WisBlockApi} {OK : TaskEventsOk}.










Lemma bind_at {A B : Type} (m m' : M A) (k : A -> M B) (s s' : State) :
  m s = m' s' -> bind m k s = bind m' k s'.
Proof. intros H. unfold bind. rewrite H. reflexivity. Qed.




End EventFlags.

(** ** The model on the reference platform *)

Section Platform.

Lemma wisblock_ok : @TaskEventsOk exact_arith wisblock_api.
Proof.
  split.
  - intros []; simpl; lia.
  - intros []; reflexivity.
  - intros [] [] H; try reflexivity; congruence.
Qed.

#[local] Existing Instance exact_arith.
#[local] Existing Instance wisblock_api.
#[local] Existing Instance wisblock_ok.

Example status_over_p2p :
  trace_of (app_event_handler
              (demo_state 1 0 (demo_api true false LMH_UNCONFIRMED_MSG false true) [] no_irq))
  = [ELog "APP" "Timer wakeup" []; EDigitalWrite 34 true]
    ++ repeat (ERead_batt (inject_Z 3700)) 10
    ++ [ESend_p2p_packet [1; 116; 1; 114] 4; EDigitalWrite 34 false].
Proof. vm_compute. reflexivity. Qed.

Example hex_dump_of_two_bytes : hex_dump 2 [171; 5] = None.
Proof. reflexivity. Qed.

(** A producer that sets BLE_DATA while the first log line of the BLE
    block is printed is not seen: the clear comes after that line. *)
Example ble_set_during_log_is_cleared :
  let s := demo_state 4 0 (demo_api true false LMH_UNCONFIRMED_MSG false true)
             [65] (irq_at 0 4) in
  has BLE_DATA (isr s 0) = true /\
  option_map (fun s' => Z.land (g_task_event_type s') BLE_DATA)
    (final_state (ble_data_handler 2 s)) = Some 0.
Proof. split; vm_compute; reflexivity. Qed.
End Platform.

(** ** The properties on the reference platform *)

Section OnPlatform.
#[local] Existing Instance exact_arith.
#[local] Existing Instance wisblock_api.
#[local] Existing Instance wisblock_ok.







Lemma status_p2p_when_lorawan_disabled_witness :
  bit_set STATUS st_status_p2p /\
  lorawan_enable (g_lorawan_settings (api st_status_p2p)) = false /\
  exists s' t,
    app_event_handler st_status_p2p = Returned tt s' t /\
    count is_send_p2p_packet t = 1%nat /\
    count is_send_lora_packet t = 0%nat /\
    sent_of t = [(getBuffer (payload s'), getSize (payload s'))].
Proof.
  assert (Hset : bit_set STATUS st_status_p2p) by reflexivity.
  split; [exact Hset|]. split; [reflexivity|].
  destruct (status_p2p_when_lorawan_disabled (s:=st_status_p2p) Hset eq_refl)
    as [s' [t [E [H1 [H2 [H3 _]]]]]].
  exists s', t. repeat split; assumption.
Defined.

Lemma status_skips_when_not_joined_witness :
  bit_set STATUS st_status_not_joined /\
  lorawan_enable (g_lorawan_settings (api st_status_not_joined)) = true /\
  g_lpwan_has_joined (api st_status_not_joined) = false /\
  exists s' t,
    app_event_handler st_status_not_joined = Returned tt s' t /\
    count is_send_lora_packet t = 0%nat /\
    count is_send_p2p_packet t = 0%nat /\
    sent_of t = [].
Proof.
  assert (Hset : bit_set STATUS st_status_not_joined) by reflexivity.
  split; [exact Hset|]. split; [reflexivity|]. split; [reflexivity|].
  exact (status_skips_when_not_joined (s:=st_status_not_joined) Hset eq_refl eq_refl).
Defined.

Lemma st_status_joined_fits : reading_fits st_status_joined.
Proof. vm_compute. discriminate. Defined.

Lemma payload_reset_then_one_record_witness :
  bit_set STATUS st_status_joined /\
  reading_fits st_status_joined /\
  exists s',
    final_state (app_event_handler st_status_joined) = Some s' /\
    records (payload s') =
      [voltage_record LPP_CHANNEL_BATT
         (batt_volts (batt_sum (take_stream 10 (batt st_status_joined))))].
Proof.
  assert (Hset : bit_set STATUS st_status_joined) by reflexivity.
  split; [exact Hset|]. split; [exact st_status_joined_fits|].
  destruct (payload_reset_then_one_record (s:=st_status_joined) Hset
              st_status_joined_fits) as [s0 [t0 [s1 [t1 H]]]].
  destruct H as [_ [_ [_ [_ [_ [_ [_ [s' [Ef [Hr _]]]]]]]]]].
  exists s'. split; [exact Ef | exact Hr].
Defined.

Lemma ble_forwards_bytes_then_newline_witness :
  g_enable_ble (api st_ble_enabled) = true /\
  bit_set BLE_DATA st_ble_enabled /\
  (List.length (ble_rx st_ble_enabled) < 4)%nat /\
  exists s' t,
    ble_data_handler 4 st_ble_enabled = Returned tt s' t /\
    at_input_of t = [65; 84; 13; 10] /\
    count is_at_serial_input t = 4%nat.
Proof.
  assert (H3 : (List.length (ble_rx st_ble_enabled) < 4)%nat) by (simpl; lia).
  assert (Hset : bit_set BLE_DATA st_ble_enabled) by reflexivity.
  split; [reflexivity|]. split; [exact Hset|]. split; [exact H3|].
  destruct (ble_forwards_bytes_then_newline (fuel:=4) (s:=st_ble_enabled)
              eq_refl Hset H3) as [s' [t [E [_ [Ha [_ [Hc _]]]]]]].
  exists s', t. split; [exact E|]. split; [exact Ha | exact Hc].
Defined.

Lemma ble_disabled_changes_nothing_witness :
  g_enable_ble (api st_ble_disabled) = false /\
  bit_set BLE_DATA st_ble_disabled /\
  ble_data_handler 4 st_ble_disabled = Returned tt st_ble_disabled [].
Proof.
  assert (Hset : bit_set BLE_DATA st_ble_disabled) by reflexivity.
  split; [reflexivity|]. split; [exact Hset|].
  exact (proj1 (ble_disabled_changes_nothing 4 (s:=st_ble_disabled) eq_refl Hset)).
Defined.
End OnPlatform.

(** ** The voltage on the target *)

Section OnTarget.
#[local] Existing Instance ieee_arith.
#[local] Existing Instance wisblock_ieee.

(** The rounding on numbers whose binary32 and binary64 values are
    known: a tenth, a tie that goes to the even neighbour on either
    side, a third in a division, the smallest subnormal number, and the
    numbers around the largest one of binary32, 2^128 - 2^104. *)
Example round_a_tenth :
  round binary32 (1 # 10) = (13421773 # 134217728)%Q /\
  round binary64 (1 # 10) = (3602879701896397 # 36028797018963968)%Q.
Proof. split; vm_compute; reflexivity. Qed.

Example round_ties_to_even :
  round binary32 16777217 = 16777216%Q /\ round binary32 16777219 = 16777220%Q /\
  round binary32 (pow2 (-150)) = 0%Q /\
  round binary32 (pow2 (-149)) = Qred (pow2 (-149)).
Proof. repeat split; vm_compute; reflexivity. Qed.

Example a_third_and_the_infinities :
  fdiv (Finite 1) (Finite 3) = Finite (11184811 # 33554432) /\
  fdiv (Finite 1) (Finite 0) = Infinity false /\
  fdiv (Finite 0) (Finite 0) = NaN /\
  to_ieee binary32 (pow2 128 - pow2 103)%Q = Infinity false /\
  to_ieee binary32 (pow2 128 - pow2 103 - 1)%Q = Finite (Qred (pow2 128 - pow2 104)%Q).
Proof. repeat split; vm_compute; reflexivity. Qed.

(** Ten samples of 4180 mV.  The sum, 41800, and the mean, 4180, are
    numbers of binary32; 4.18 is not, and the encoder is given
    8766095 / 2^21 = 4.17999983.  Its product with 100 is below 418, and
    the record says 417 = 0x01A1. *)
Example ten_samples_of_4180 :
  batt_volts (batt_sum (repeat (Finite 4180) 10)) = Finite (8766095 # 2097152) /\
  option_map (fun s' => records (payload s'))
    (final_state (app_event_handler st_status_4180))
  = Some [{| lpp_channel := 1; lpp_type := 116; lpp_data := [1; 161] |}].
Proof. split; vm_compute; reflexivity. Qed.

Lemma st_status_4180_fits : reading_fits st_status_4180.
Proof. vm_compute. discriminate. Qed.

Lemma samples_4180_in_range :
  Forall (fun q => 0 <= q <= 1048576)%Q (repeat 4180%Q 10).
Proof.
  apply Forall_forall. intros q Hq. apply repeat_spec in Hq. subst q.
  split; apply Qle_bool_imp_le; reflexivity.
Qed.

Lemma encoded_voltage_is_mean_of_ten_witness :
  bit_set STATUS st_status_4180 /\
  reading_fits st_status_4180 /\
  take_stream 10 (batt st_status_4180) = map Finite (repeat 4180%Q 10) /\
  Forall (fun q => 0 <= q <= 1048576)%Q (repeat 4180%Q 10) /\
  exists s' t v,
    app_event_handler st_status_4180 = Returned tt s' t /\
    samples_of t = repeat (Finite 4180) 10 /\
    records (payload s') =
      [{| lpp_channel := 1; lpp_type := 116;
          lpp_data := lpp_voltage_of_float (Finite v) |}] /\
    (Qabs (v - volts (mean (repeat 4180%Q 10))) <= 1 # 400)%Q.
Proof.
  assert (Hset : bit_set STATUS st_status_4180) by reflexivity.
  assert (Hbatt : take_stream 10 (batt st_status_4180) = map Finite (repeat 4180%Q 10))
    by reflexivity.
  split; [exact Hset|]. split; [exact st_status_4180_fits|].
  split; [exact Hbatt|]. split; [exact samples_4180_in_range|].
  destruct (encoded_voltage_is_mean_of_ten Hset st_status_4180_fits Hbatt
              samples_4180_in_range) as [s' [t [v [E [Hs [Hr [_ Habs]]]]]]].
  exists s', t, v. split; [exact E|]. split; [exact Hs|].
  split; [exact Hr | exact Habs].
Defined.
End OnTarget.


(** * More of the handlers *)

(** ** Failures in total, not in a row *)

Section CounterNeverReset.
Context {FA : FloatArith} {API : WisBlockApi} {OK : TaskEventsOk}.







End CounterNeverReset.

(** ** More of the status block *)

Section MoreOfStatus.
Context {FA : FloatArith} {API : WisBlockApi}.

Lemma status_transmit_joined (s : State) :
  lorawan_enable (g_lorawan_settings (api s)) = true ->
  g_lpwan_has_joined (api s) = true ->
  exists s2,
    status_transmit s =
      Returned tt s2
        ([ESend_lora_packet (getBuffer (payload s)) (getSize (payload s)) 2
            (lora_status s 0)]
         ++ mylog_events (g_ble_uart_is_connected (api s)) "APP"
              (enqueue_line (lora_status s 0)) []
         ++ [EDigitalWrite WB_IO2 false]) /\
    payload s2 = payload s /\
    lora_status s2 = tl_stream (lora_status s).
Proof.
  intros He Hj. unfold status_transmit. run_unfold. run_branches;
    eexists; (split; [reflexivity|]); split; reflexivity.
Qed.

(** X3: a status event handled while wide-area mode is enabled and the
    node has joined makes exactly one call of [send_lora_packet], on
    port 2 and with the payload of this cycle; it takes one result from
    the radio and logs the line of that result; nothing but the write of
    WB_IO2 follows, whatever the result: a busy radio or a rejected
    packet is not tried again. *)
Theorem status_enqueues_once_when_joined (s : State) :
  bit_set STATUS s ->
  lorawan_enable (g_lorawan_settings (api s)) = true ->
  g_lpwan_has_joined (api s) = true ->
  exists s' t0,
    app_event_handler s =
      Returned tt s'
        (t0
         ++ [ESend_lora_packet (getBuffer (payload s')) (getSize (payload s')) 2
               (lora_status s 0)]
         ++ mylog_events (g_ble_uart_is_connected (api s)) "APP"
              (enqueue_line (lora_status s 0)) []
         ++ [EDigitalWrite WB_IO2 false]) /\
    sent_of t0 = [] /\
    payload s' =
      addVoltage LPP_CHANNEL_BATT (batt_volts (batt_sum (samples_of t0)))
        (reset (payload s)) /\
    lora_status s' = tl_stream (lora_status s).
Proof.
  intros Hset He Hj.
  destruct (status_event_run s) as [s0 [s1 [_ [_ [_ [Hp1 [Ha1 [Hl1 E]]]]]]]].
  rewrite <- Ha1 in He, Hj.
  destruct (status_transmit_joined s1 He Hj) as [s2 [E2 [Hp2 Hl2]]].
  rewrite Ha1, Hl1, <- Hp2 in E2.
  destruct (reads_only (take_stream 10 (batt s))) as [R1 [R2 _]].
  eexists. eexists.
  split; [rewrite (app_event_handler_set Hset), E, E2; reflexivity|].
  unfold samples_of, sent_of in *. rewrite !flat_map_app. fold samples_of sent_of in *.
  rewrite R1, R2, Hp2, Hl2, Hl1.
  destruct (g_ble_uart_is_connected (api s)); simpl; rewrite ?app_nil_r;
    repeat split; exact Hp1.
Qed.

Lemma status_transmit_shape (s : State) :
  exists s2 t,
    status_transmit s = Returned tt s2 (t ++ [EDigitalWrite WB_IO2 false]) /\
    forallb status_mid_call t = true.
Proof.
  unfold status_transmit. run_unfold. run_branches;
    eexists;
    match goal with
    | |- exists t, Returned _ _ ?full = _ /\ _ => exists (removelast full)
    end; split; reflexivity.
Qed.

Lemma forallb_reads (samples : list float) :
  forallb status_mid_call (map ERead_batt samples) = true.
Proof. induction samples as [| v l IH]; [reflexivity | exact IH]. Qed.

Lemma mid_calls_no_write (t : list Event) :
  forallb status_mid_call t = true ->
  count is_digital_write t = 0%nat /\ count is_delay t = 0%nat /\
  count is_api_reset t = 0%nat /\ count is_at_serial_input t = 0%nat.
Proof.
  intros H. repeat split; apply (@count_none _ _ status_mid_call);
    try exact H; intros [] He; try reflexivity; discriminate He.
Qed.

(** X4: the handling of a status event is bracketed by WB_IO2: after the
    log line the pin is written high, before the first sample is read,
    and the last call of the handler writes it low, in every branch.
    Between the two writes the handler only reads its ten samples, sends
    and logs: it does not write a pin, delay, restart or feed the AT
    interpreter; it leaves the failure counter and the API globals as
    they are. *)
Theorem status_brackets_io2 (s : State) :
  bit_set STATUS s ->
  exists s' t_mid,
    app_event_handler s =
      Returned tt s'
        (mylog_events (g_ble_uart_is_connected (api s)) "APP" "Timer wakeup" []
         ++ [EDigitalWrite WB_IO2 true] ++ t_mid ++ [EDigitalWrite WB_IO2 false]) /\
    forallb status_mid_call t_mid = true /\
    count is_digital_write t_mid = 0%nat /\ count is_delay t_mid = 0%nat /\
    count is_api_reset t_mid = 0%nat /\ count is_at_serial_input t_mid = 0%nat /\
    samples_of t_mid = take_stream 10 (batt s) /\
    send_fail s' = send_fail s /\ api s' = api s.
Proof.
  intros Hset.
  destruct (status_event_run s) as [s0 [s1 [_ [_ [_ [_ [_ [_ E]]]]]]]].
  destruct (status_transmit_shape s1) as [s2 [t [E2 Hmid]]].
  assert (Hf : sat false (keeps send_fail) app_event_handler) by (sat_run; frame_leaf).
  assert (Ha : sat false (keeps api) app_event_handler) by (sat_run; frame_leaf).
  specialize (Hf s). specialize (Ha s).
  assert (Hs : samples_of t = []).
  { destruct (status_transmit_run s1) as [s3 [t3 [E3 [_ [Hs3 _]]]]].
    rewrite E2 in E3. injection E3 as _ <-.
    unfold samples_of in *. rewrite flat_map_app in Hs3.
    apply app_eq_nil in Hs3. exact (proj1 Hs3). }
  destruct (reads_only (take_stream 10 (batt s))) as [R1 _].
  rewrite (app_event_handler_set Hset), E, E2 in Hf, Ha. simpl in Hf, Ha.
  exists s2, (map ERead_batt (take_stream 10 (batt s)) ++ t).
  split.
  { rewrite (app_event_handler_set Hset), E, E2. simpl.
    rewrite <- !app_assoc. reflexivity. }
  assert (Hall : forallb status_mid_call
                   (map ERead_batt (take_stream 10 (batt s)) ++ t) = true).
  { rewrite forallb_app, forallb_reads, Hmid. reflexivity. }
  split; [exact Hall|].
  destruct (mid_calls_no_write _ Hall) as [H1 [H2 [H3 H4]]].
  repeat (split; [assumption|]).
  split; [|split; assumption].
  unfold samples_of in *. rewrite flat_map_app, R1, Hs. apply app_nil_r.
Qed.
End MoreOfStatus.

(** ** Status events in a row *)

Section StatusCycles.
Context {FA : FloatArith} {API : WisBlockApi} {OK : TaskEventsOk}.

#[global] Instance batt_adv_monoidal : Monoidal batt_adv.
Proof.
  split; unfold batt_adv.
  - intros s i. reflexivity.
  - intros s t1 s1 t2 s2 H1 H2 i. rewrite H2, H1. f_equal.
    unfold samples_of. rewrite flat_map_app, length_app. lia.
Qed.

Lemma read_batt_adv : sat false batt_adv read_batt.
Proof. intros s i. reflexivity. Qed.

Lemma app_event_handler_adv : sat false batt_adv app_event_handler.
Proof.
  repeat (progress unfold app_event_handler, status_event, status_body,
            status_prepare, status_battery, status_transmit, MYLOG, digitalWrite,
            send_lora_packet, send_p2p_packet, clear_event;
          sat_steps);
    first [ apply read_batt_adv | intros i; reflexivity ].
Qed.

Lemma timer_fired_sets (s : State) : bit_set STATUS (timer_fired s).
Proof.
  apply Bits.has_irq_set.
  - apply (mask_in_range EvStatus).
  - apply Bits.has_true. apply Z.land_diag.
Qed.

Lemma take_stream_app {A : Type} (a b : nat) (p : nat -> A) :
  take_stream (a + b) p = take_stream a p ++ take_stream b (fun i => p (a + i)%nat).
Proof.
  unfold take_stream. rewrite seq_app, map_app. f_equal.
  rewrite <- (map_map (fun i => (a + i)%nat) p). f_equal.
  assert (H : forall c, seq (c + a) b = map (fun i => (a + i)%nat) (seq c b)).
  { clear p. induction b as [| b IH]; intros c; simpl; [reflexivity|].
    f_equal; [lia | apply (IH (S c))]. }
  apply (H 0%nat).
Qed.

Lemma take_stream_ext {A : Type} (n : nat) (p q : nat -> A) :
  (forall i, p i = q i) -> take_stream n p = take_stream n q.
Proof. intros H. unfold take_stream. apply map_ext. exact H. Qed.

(** One tick and its handling. *)
Lemma status_cycle (s : State) :
  voltage_fits s ->
  exists s' t,
    app_event_handler (timer_fired s) = Returned tt s' t /\
    samples_of t = take_stream 10 (batt s) /\
    payload s' = {| maxsize := maxsize (payload s); records := [reading_of_cycle s 0] |} /\
    (forall i, batt s' i = batt s (10 + i)%nat) /\
    (List.length (sent_of t) <= 1)%nat.
Proof.
  intros Hfit.
  destruct (app_event_handler_run (timer_fired_sets s))
    as [s' [t [E [Hs [Hp [Hsent _]]]]]].
  pose proof (app_event_handler_adv (timer_fired s)) as Hadv.
  rewrite E in Hadv. exists s', t. split; [exact E|]. split; [exact Hs|].
  split.
  { rewrite Hp. unfold addVoltage. rewrite addRecord_fits by apply Hfit.
    reflexivity. }
  split.
  { intros i. rewrite Hadv, Hs. reflexivity. }
  rewrite Hsent.
  destruct (lorawan_enable _); [destruct (g_lpwan_has_joined _)|]; simpl; lia.
Qed.

Lemma status_cycles (n : nat) : forall s : State,
  voltage_fits s ->
  exists s' t,
    status_events n s = Returned tt s' t /\
    samples_of t = take_stream (10 * n) (batt s) /\
    maxsize (payload s') = maxsize (payload s) /\
    (List.length (sent_of t) <= n)%nat /\
    (forall m, n = S m -> records (payload s') = [reading_of_cycle s m]).
Proof.
  induction n as [| n IH]; intros s Hfit.
  - exists s, []. repeat split; try reflexivity; try (simpl; lia); discriminate.
  - destruct (status_cycle Hfit) as [s1 [t1 [E1 [Hs1 [Hp1 [Hb1 Hsent1]]]]]].
    assert (Hfit1 : voltage_fits s1).
    { intros v. rewrite Hp1. apply Hfit. }
    destruct (IH s1 Hfit1) as [s' [t [E [Hs [Hm [Hsent Hrec]]]]]].
    exists s', (t1 ++ t).
    split.
    { simpl status_events. rewrite bind_modify. unfold bind at 1.
      rewrite E1, E. reflexivity. }
    split.
    { unfold samples_of in *. rewrite flat_map_app, Hs1, Hs.
      replace (10 * S n)%nat with (10 + 10 * n)%nat by lia.
      rewrite take_stream_app. f_equal. apply take_stream_ext. exact Hb1. }
    split; [rewrite Hm, Hp1; reflexivity|].
    split.
    { unfold sent_of in *. rewrite flat_map_app, length_app. lia. }
    intros m Hnm. injection Hnm as <-.
    destruct n as [| m].
    + simpl in E. injection E as <- _. rewrite Hp1. reflexivity.
    + rewrite (Hrec m eq_refl). unfold reading_of_cycle.
      replace (take_stream 10 (fun i => batt s1 (10 * m + i)%nat))
        with (take_stream 10 (fun i => batt s (10 * S m + i)%nat)); [reflexivity|].
      apply take_stream_ext. intros i. rewrite Hb1. f_equal. lia.
Qed.

(** X5: the payload does not grow from one status event to the next.
    After any number of timer ticks, each handled by
    [app_event_handler], the payload holds exactly one record, the
    voltage of the last cycle, whatever it held at the start; every cycle
    has read the next ten samples of the sampler, and there is at most
    one send call for each cycle. *)
Theorem payload_does_not_accumulate (n : nat) (s : State) :
  voltage_fits s ->
  exists s' t,
    status_events (S n) s = Returned tt s' t /\
    records (payload s') = [reading_of_cycle s n] /\
    samples_of t = take_stream (10 * S n) (batt s) /\
    (List.length (sent_of t) <= S n)%nat.
Proof.
  intros Hfit.
  destruct (status_cycles (S n) Hfit) as [s' [t [E [Hs [_ [Hsent Hrec]]]]]].
  exists s', t. split; [exact E|]. split; [exact (Hrec n eq_refl)|].
  split; assumption.
Qed.
End StatusCycles.

(** ** The join-finished and the data-received block *)

Section JoinAndData.
Context {FA : FloatArith} {API : WisBlockApi}.

Lemma lora_data_handler_at_join (s : State) :
  bit_set LORA_JOIN_FIN s ->
  lora_data_handler s = bind join_fin_event (fun _ => lora_data ;; lora_tx_fin) s.
Proof.
  intros Hset. unfold lora_data_handler. apply bind_at.
  unfold lora_join_fin. rewrite bind_gets. unfold bit_set in Hset. rewrite Hset.
  reflexivity.
Qed.

Lemma key_args_length (session_key : list Z) :
  List.length (key_args session_key) = 16%nat.
Proof. reflexivity. Qed.

(** X6: the join-finished block.  After a failed join it logs the one
    line "Join network failed" and calls nothing else: no new join is
    started.  After a successful join it fetches the network session key
    and then the application session key, once each, and logs four
    lines, each key as 16 bytes.  In both cases the block returns, with
    the failure counter, the payload and the API globals as they were,
    and [lora_data_handler] goes on to its next test. *)
Theorem join_finished_is_only_logged (s : State) :
  bit_set LORA_JOIN_FIN s ->
  exists s1 t,
    join_fin_event s = Returned tt s1 t /\
    lora_data_handler s = prefix_trace t ((lora_data ;; lora_tx_fin) s1) /\
    send_fail s1 = send_fail s /\ payload s1 = payload s /\ api s1 = api s /\
    (if g_join_result (api s)
     then t = mylog_events (g_ble_uart_is_connected (api s)) "APP"
                "Successfully joined network" []
              ++ [ELmh_getNwSkey]
              ++ mylog_events (g_ble_uart_is_connected (api s)) "APP"
                   "NwSkey = %02X%02X%02X%02X%02X%02X%02X%02X%02X%02X%02X%02X%02X%02X%02X%02X"
                   (key_args (NwSkey (api s)))
              ++ [ELmh_getAppSkey]
              ++ mylog_events (g_ble_uart_is_connected (api s)) "APP"
                   "AppSkey = %02X%02X%02X%02X%02X%02X%02X%02X%02X%02X%02X%02X%02X%02X%02X%02X"
                   (key_args (AppSkey (api s)))
              ++ mylog_events (g_ble_uart_is_connected (api s)) "APP"
                   "DevAddr = %04LX" [ArgInt (LoRaMacDevAddr (api s))]
     else t = mylog_events (g_ble_uart_is_connected (api s)) "APP"
                "Join network failed" []) /\
    count is_lmh_call t = (if g_join_result (api s) then 2%nat else 0%nat).
Proof.
  intros Hset. rewrite (lora_data_handler_at_join Hset).
  assert (H : exists s1 t,
             join_fin_event s = Returned tt s1 t /\
             send_fail s1 = send_fail s /\ payload s1 = payload s /\ api s1 = api s /\
             (if g_join_result (api s)
              then t = mylog_events (g_ble_uart_is_connected (api s)) "APP"
                         "Successfully joined network" []
                       ++ [ELmh_getNwSkey]
                       ++ mylog_events (g_ble_uart_is_connected (api s)) "APP"
                            "NwSkey = %02X%02X%02X%02X%02X%02X%02X%02X%02X%02X%02X%02X%02X%02X%02X%02X"
                            (key_args (NwSkey (api s)))
                       ++ [ELmh_getAppSkey]
                       ++ mylog_events (g_ble_uart_is_connected (api s)) "APP"
                            "AppSkey = %02X%02X%02X%02X%02X%02X%02X%02X%02X%02X%02X%02X%02X%02X%02X%02X"
                            (key_args (AppSkey (api s)))
                       ++ mylog_events (g_ble_uart_is_connected (api s)) "APP"
                            "DevAddr = %04LX" [ArgInt (LoRaMacDevAddr (api s))]
              else t = mylog_events (g_ble_uart_is_connected (api s)) "APP"
                         "Join network failed" []) /\
             count is_lmh_call t = (if g_join_result (api s) then 2%nat else 0%nat)).
  { unfold join_fin_event, join_fin_body. run_unfold.
    destruct (g_join_result (api s)) eqn:Hj;
      destruct (g_ble_uart_is_connected (api s)) eqn:Hc;
      repeat (progress (cbn; rewrite ?Hj, ?Hc));
      eexists; eexists; (split; [reflexivity|]); repeat split. }
  destruct H as [s1 [t [E H]]]. exists s1, t. split; [exact E|].
  split; [unfold bind at 1; rewrite E; reflexivity | exact H].
Qed.

(** The data-received block logs three lines: the notice, the signal
    readings and the dump. *)
Lemma lora_data_event_run (s : State) :
  exists s1,
    lora_data_event s =
      Returned tt s1
        (mylog_events (g_ble_uart_is_connected (api s)) "APP"
           "Received package over LoRa" []
         ++ mylog_events (g_ble_uart_is_connected (api s)) "APP" "RSSI %d SNR %d"
              [ArgInt (g_last_rssi (api s)); ArgInt (g_last_snr (api s))]
         ++ mylog_events (g_ble_uart_is_connected (api s)) "APP" "%s"
              [dump_arg (hex_dump (g_rx_data_len (api s)) (g_rx_lora_data (api s)))]) /\
    send_fail s1 = send_fail s /\ payload s1 = payload s /\ api s1 = api s.
Proof.
  unfold lora_data_event, lora_data_body. run_unfold.
  destruct (g_ble_uart_is_connected (api s)) eqn:Hc;
    repeat (progress (cbn; rewrite ?Hc));
    eexists; (split; [reflexivity|]); repeat split.
Qed.
End JoinAndData.

(** ** The hex dump *)

Section HexDump.

Lemma hex_digit_positive (n : Z) : 0 <= n -> hex_digit n <> 0.
Proof. intros H. unfold hex_digit. destruct (n <? 10); lia. Qed.

Lemma hex3_no_nul (b : Z) : Forall (fun c => c <> 0) (hex3 b).
Proof.
  unfold hex3, u8.
  pose proof (Z.mod_pos_bound b 256 ltac:(lia)) as Hb.
  repeat constructor.
  - apply hex_digit_positive. apply Z.div_pos; lia.
  - apply hex_digit_positive. apply Z.mod_pos_bound. lia.
  - discriminate.
Qed.

(** Whether a write stays in the array, and where the NULs are after
    it, does not depend on the characters written. *)
Lemma same_shape_cons (b b' : Z) (o o' : option (list Z)) :
  (0 =? b) = (0 =? b') -> same_shape o o' ->
  same_shape (option_map (cons b) o) (option_map (cons b') o').
Proof.
  intros Hb H. destruct o as [l |]; destruct o' as [l' |]; simpl in *;
    try contradiction; [|exact I].
  unfold same_nuls in *. simpl. rewrite Hb, H. reflexivity.
Qed.

Lemma poke_same_shape (buf : list Z) : forall (buf' cs cs' : list Z) (i : nat),
  same_nuls buf buf' -> same_nuls cs cs' ->
  same_shape (poke buf i cs) (poke buf' i cs').
Proof.
  induction buf as [| b buf IH]; intros buf' cs cs' i Hb Hc;
    destruct buf' as [| b' buf']; try discriminate Hb.
  - destruct cs; destruct cs'; try discriminate Hc; simpl; [reflexivity | exact I].
  - pose proof Hb as Hbb. unfold same_nuls in Hb. simpl in Hb. injection Hb as Hb0 Hb.
    destruct i as [| i]; simpl.
    + destruct cs as [| c cs]; destruct cs' as [| c' cs']; try discriminate Hc.
      * exact Hbb.
      * unfold same_nuls in Hc. simpl in Hc. injection Hc as Hc0 Hc.
        apply same_shape_cons; [exact Hc0 | apply IH; assumption].
    + apply same_shape_cons; [exact Hb0 | apply IH; assumption].
Qed.

Lemma sprintf_same_nuls (b b' : Z) : same_nuls (sprintf_02X b) (sprintf_02X b').
Proof.
  assert (H : forall x, map (Z.eqb 0) (sprintf_02X x) = [false; false; false; true]).
  { intros x. pose proof (hex3_no_nul x) as Hx. unfold hex3 in Hx.
    inversion Hx as [| ? ? H1 Hx1]; subst. inversion Hx1 as [| ? ? H2 _]; subst.
    unfold sprintf_02X. cbn [map].
    replace (0 =? hex_digit (u8 x / 16)) with false
      by (symmetry; apply Z.eqb_neq; congruence).
    replace (0 =? hex_digit (u8 x mod 16)) with false
      by (symmetry; apply Z.eqb_neq; congruence).
    reflexivity. }
  unfold same_nuls. rewrite !H. reflexivity.
Qed.

Lemma hex_loop_same_shape (data data' : list Z) (n : nat) :
  forall (idx idx' log_idx : Z) (buf buf' : list Z),
    same_nuls buf buf' ->
    same_shape (hex_loop n idx log_idx data buf) (hex_loop n idx' log_idx data' buf').
Proof.
  induction n as [| n IH]; intros idx idx' log_idx buf buf' H; simpl; [exact H|].
  pose proof (@poke_same_shape buf buf'
                (sprintf_02X (nth (Z.to_nat idx) data 0))
                (sprintf_02X (nth (Z.to_nat idx') data' 0))
                (Z.to_nat log_idx) H (sprintf_same_nuls _ _)) as Hp.
  destruct (poke buf _ _) as [l |]; destruct (poke buf' _ _) as [l' |];
    simpl in Hp; try contradiction; [apply IH; exact Hp | exact I].
Qed.

Lemma c_str_same_nuls (l : list Z) : forall l' : list Z,
  same_nuls l l' ->
  option_map (@List.length Z) (c_str l) = option_map (@List.length Z) (c_str l').
Proof.
  unfold same_nuls.
  induction l as [| c l IH]; intros [| c' l'] H; try discriminate H; [reflexivity|].
  cbn [map] in H. injection H as H0 H. specialize (IH l' H).
  destruct c; destruct c'; try discriminate H0; simpl; try reflexivity;
    destruct (c_str l); destruct (c_str l'); simpl in *;
    try discriminate IH; try reflexivity; injection IH as IH; rewrite IH; reflexivity.
Qed.


Lemma hex_dump_length_any (len : Z) (data : list Z) :
  option_map (@List.length Z) (hex_dump len data) =
  option_map (@List.length Z) (hex_dump len []).
Proof.
  unfold hex_dump.
  pose proof (@hex_loop_same_shape data [] (Z.to_nat len) 0 0 0
                (repeat 0 (Z.to_nat (len * 3))) (repeat 0 (Z.to_nat (len * 3)))
                eq_refl) as Hs.
  destruct (hex_loop _ _ _ data _) as [l |]; destruct (hex_loop _ _ _ [] _) as [l' |];
    simpl in Hs; try contradiction; [apply c_str_same_nuls; exact Hs | reflexivity].
Qed.

Lemma hex_dump_table :
  forallb (fun n => match hex_dump (Z.of_nat n) [] with
                    | None => Nat.leb n 86
                    | Some text =>
                        Nat.leb 87 n &&
                        Nat.eqb (List.length text) ((3 * (n - 1)) mod 256 + 3)
                    end)
          (seq 0 256) = true.
Proof. vm_compute. reflexivity. Qed.



(** From 87 bytes on every write ends inside the array. *)
Lemma hex_dump_defined (len : Z) (data : list Z) :
  87 <= len <= 255 ->
  exists text : list Z,
    hex_dump len data = Some text /\
    List.length text = ((3 * (Z.to_nat len - 1)) mod 256 + 3)%nat.
Proof.
  intros Hlen.
  pose proof (hex_dump_length_any len data) as Hany.
  pose proof hex_dump_table as Hall. rewrite forallb_forall in Hall.
  specialize (Hall (Z.to_nat len)). rewrite Z2Nat.id in Hall by lia.
  assert (Hin : In (Z.to_nat len) (seq 0 256)) by (apply in_seq; lia).
  apply Hall in Hin.
  destruct (hex_dump len []) as [text0 |].
  - apply andb_true_iff in Hin. destruct Hin as [_ Hin]. apply Nat.eqb_eq in Hin.
    destruct (hex_dump len data) as [text |]; [|discriminate Hany].
    simpl in Hany. injection Hany as Hany. exists text.
    split; [reflexivity | rewrite Hany; exact Hin].
  - apply Nat.leb_le in Hin. lia.
Qed.

(** X8: for a packet of 87 to 255 bytes the dump stays in its buffer
    and is cut short.  The index [log_idx] is a byte and starts again
    from the left of the buffer after 255, so the later bytes are
    written over the earlier ones, and the string that is logged ends at
    the NUL of the last [sprintf]: it has [(3 * (len - 1)) mod 256 + 3]
    characters, fewer than the [3 * len] of the packet. *)
Theorem hex_dump_cut_short (len : Z) (data : list Z) :
  87 <= len <= 255 ->
  exists text : list Z,
    hex_dump len data = Some text /\
    Z.of_nat (List.length text) = (3 * (len - 1)) mod 256 + 3 /\
    Z.of_nat (List.length text) < 3 * len.
Proof.
  intros Hlen.
  destruct (hex_dump_defined data Hlen) as [text [E Hin]].
  exists text. split; [exact E|].
  assert (H : Z.of_nat (List.length text) = (3 * (len - 1)) mod 256 + 3).
  { rewrite Hin.
    rewrite Nat2Z.inj_add, Nat2Z.inj_mod, Nat2Z.inj_mul, Nat2Z.inj_sub by lia.
    rewrite Z2Nat.id by lia. reflexivity. }
  split; [exact H|]. rewrite H.
  pose proof (Z.mod_pos_bound (3 * (len - 1)) 256 ltac:(lia)). lia.
Qed.
End HexDump.

(** ** The bits of the other kinds *)

Section OtherKinds.
Context {FA : FloatArith} {API : WisBlockApi} {OK : TaskEventsOk}.




(** X10: a handler called with none of its bits pending returns at once:
    it makes no call and changes no global. *)
Theorem handler_idle (h : Handler) (fuel : nat) (s : State) :
  (forall k, serves h k = true -> has (mask k) (g_task_event_type s) = false) ->
  run_handler h fuel s = Returned tt s [].
Proof.
  intros Hnone.
  pose proof (Hnone EvStatus) as Hs. pose proof (Hnone EvJoinFin) as Hj.
  pose proof (Hnone EvLoraData) as Hd. pose proof (Hnone EvTxFin) as Ht.
  pose proof (Hnone EvBleData) as Hb. clear Hnone.
  destruct h; simpl run_handler; simpl in Hs, Hj, Hd, Ht, Hb.
  - unfold app_event_handler. rewrite bind_gets, (Hs eq_refl). reflexivity.
  - unfold lora_data_handler, lora_join_fin, lora_data, lora_tx_fin.
    unfold bind at 1. rewrite bind_gets, (Hj eq_refl). simpl.
    unfold bind at 1. rewrite bind_gets, (Hd eq_refl). simpl.
    rewrite bind_gets, (Ht eq_refl). reflexivity.
  - unfold ble_data_handler. rewrite bind_gets.
    destruct (g_enable_ble (api s)); [|reflexivity]. simpl when.
    rewrite bind_gets, (Hb eq_refl). reflexivity.
Qed.
End OtherKinds.

(** ** The pace of the command bridge *)

Section BridgePace.
Context {FA : FloatArith} {API : WisBlockApi}.

Lemma drain_events_delays (rx : list Z) :
  count is_delay (drain_events rx) = List.length rx /\
  delayed_ms (drain_events rx) = 5 * Z.of_nat (List.length rx) /\
  sent_of (drain_events rx) = [] /\
  count is_api_reset (drain_events rx) = 0%nat.
Proof.
  induction rx as [| c rx [IH1 [IH2 [IH3 IH4]]]]; [repeat split|].
  split; [unfold count in *; simpl; f_equal; exact IH1|].
  split; [change (delayed_ms (drain_events (c :: rx)))
            with (5 + delayed_ms (drain_events rx)); rewrite IH2; simpl List.length; lia|].
  split; [exact IH3 | exact IH4].
Qed.

Lemma delayed_ms_app (t1 t2 : list Event) :
  delayed_ms (t1 ++ t2) = delayed_ms t1 + delayed_ms t2.
Proof.
  induction t1 as [| e t1 IH]; [reflexivity|].
  simpl. rewrite IH. destruct e; lia.
Qed.

(** X11: the command bridge paces its input and does nothing else.
    With N bytes waiting it calls [delay(5)] once after each forwarded
    byte and not after the terminator, 5 N ms in all; it sends nothing
    by radio, does not restart, and leaves the failure counter, the
    payload and the API globals as they were. *)
Theorem ble_bridge_pace (fuel : nat) (s : State) :
  g_enable_ble (api s) = true ->
  bit_set BLE_DATA s ->
  (List.length (ble_rx s) < fuel)%nat ->
  exists s' t,
    ble_data_handler fuel s = Returned tt s' t /\
    count is_delay t = List.length (ble_rx s) /\
    delayed_ms t = 5 * Z.of_nat (List.length (ble_rx s)) /\
    sent_of t = [] /\ count is_api_reset t = 0%nat /\
    send_fail s' = send_fail s /\ payload s' = payload s /\ api s' = api s.
Proof.
  intros He Hset Hlt.
  rewrite (ble_data_handler_split fuel He Hset).
  destruct (ble_data_body_run
              (R:=rel_and (keeps send_fail) (rel_and (keeps payload) (keeps api)))
              (fun s e => conj eq_refl (conj eq_refl eq_refl))
              (fun s rx => conj eq_refl (conj eq_refl eq_refl)) (fuel:=fuel)
              (after_clear N_BLE_DATA (after_mylog s))) as [s' [E [_ [Hf [Hp Ha]]]]].
  { unfold after_mylog. destruct (g_ble_uart_is_connected (api s)); exact Hlt. }
  assert (Hsame : ble_rx (after_clear N_BLE_DATA (after_mylog s)) = ble_rx s /\
                  send_fail (after_clear N_BLE_DATA (after_mylog s)) = send_fail s /\
                  payload (after_clear N_BLE_DATA (after_mylog s)) = payload s /\
                  api (after_clear N_BLE_DATA (after_mylog s)) = api s).
  { unfold after_mylog. destruct (g_ble_uart_is_connected (api s)); repeat split. }
  destruct Hsame as [Hrx [Hf0 [Hp0 Ha0]]].
  unfold keeps in Hf, Hp, Ha. rewrite Hrx in E. rewrite E.
  destruct (drain_events_delays (ble_rx s)) as [D1 [D2 [D3 D4]]].
  eexists. eexists. split; [reflexivity|].
  rewrite !count_app, !delayed_ms_app. unfold sent_of in *. rewrite !flat_map_app.
  rewrite D1, D2, D3, D4.
  destruct (g_ble_uart_is_connected (api s)); unfold count; simpl;
    (split; [lia|]); (split; [lia|]); (split; [reflexivity|]);
    (split; [reflexivity|]); repeat split; congruence.
Qed.
End BridgePace.

(** ** The start of the application *)

Section StartUpRuns.
Context {FA : FloatArith} {API : WisBlockApi} {AC : ArduinoCore}.

Lemma boot_prefix_nil {A : Type} (o : BootOutcome A) : boot_prefix [] o = o.
Proof. destruct o; reflexivity. Qed.

Lemma boot_bind_Serial {B : Type} (k : bool -> Boot B) (b : Board) :
  boot_bind Serial k b =
    k (serial_ready b O) (set_serial_ready (tl_stream (serial_ready b)) b).
Proof. unfold boot_bind, Serial. apply boot_prefix_nil. Qed.

Lemma boot_bind_millis {B : Type} (k : Z -> Boot B) (b : Board) :
  boot_bind millis k b = k (clock b O) (set_clock (tl_stream (clock b)) b).
Proof. unfold boot_bind, millis. apply boot_prefix_nil. Qed.

Lemma boot_bind_digitalRead {B : Type} (pin : Z) (k : Z -> Boot B) (b : Board) :
  boot_bind (digitalRead pin) k b =
    k (pin_levels b O) (set_pin_levels (tl_stream (pin_levels b)) b).
Proof. unfold boot_bind, digitalRead. apply boot_prefix_nil. Qed.

Lemma boot_bind_modify {B : Type} (f : Board -> Board) (k : unit -> Boot B) (b : Board) :
  boot_bind (boot_modify f) k b = k tt (f b).
Proof. unfold boot_bind, boot_modify. apply boot_prefix_nil. Qed.

Lemma boot_bind_call {B : Type} (e : BootEvent) (k : unit -> Boot B) (b : Board) :
  boot_bind (boot_call e) k b =
    boot_prefix [e] (k tt (set_globals (irq (globals b)) b)).
Proof. reflexivity. Qed.

Lemma boot_bind_lift_call {B : Type} (e : Event) (k : unit -> Boot B) (b : Board) :
  boot_bind (lift (call e)) k b =
    boot_prefix [BApp e] (k tt (set_globals (irq (globals b)) b)).
Proof. reflexivity. Qed.

Lemma boot_bind_MYLOG {B : Type} (tag fmt : string) (args : list LogArg)
    (k : unit -> Boot B) (b : Board) :
  boot_bind (lift (MYLOG tag fmt args)) k b =
    boot_prefix
      (map BApp (mylog_events (g_ble_uart_is_connected (api (globals b))) tag fmt args))
      (k tt (set_globals (after_mylog (globals b)) b)).
Proof. unfold boot_bind, lift. rewrite MYLOG_run. reflexivity. Qed.

Lemma same_app_refl (s : State) : same_app s s.
Proof. repeat split. Qed.

Lemma same_app_after_mylog (s s' : State) :
  same_app s s' -> same_app s (after_mylog s').
Proof.
  intros H. unfold after_mylog.
  destruct (g_ble_uart_is_connected (api s')); exact H.
Qed.

Lemma blinks_S (n : nat) (levels : nat -> Z) :
  blinks (S n) levels = blink (levels O) ++ blinks n (tl_stream levels).
Proof.
  unfold blinks, take_stream. cbn [seq map flat_map]. f_equal.
  rewrite <- seq_shift, map_map. reflexivity.
Qed.

(** The loop, from a board that has given [serial_timeout]: it makes
    one round for every test that is not over. *)
Lemma setup_wait_run (t0 : Z) (n : nat) : forall (fuel : nat) (b : Board),
  (n < fuel)%nat ->
  (forall i, (i < n)%nat ->
     serial_ready b i || negb (millis_since (clock b i) t0 <? 5000) = false) ->
  serial_ready b n || negb (millis_since (clock b n) t0 <? 5000) = true ->
  exists b',
    setup_wait fuel t0 b = Booted tt b' (blinks n (pin_levels b)) /\
    same_app (globals b) (globals b') /\
    g_custom_fw_ver b' = g_custom_fw_ver b.
Proof.
  induction n as [| n IH]; intros fuel b Hlt Hnot Hover;
    (destruct fuel as [| fuel]; [lia|]); simpl setup_wait; rewrite boot_bind_Serial.
  - cbv beta. destruct (serial_ready b 0) eqn:Es; cbn [negb]; cbv iota.
    + eexists. split; [reflexivity|]. split; [apply same_app_refl | reflexivity].
    + rewrite boot_bind_millis. cbv beta. simpl in Hover.
      apply negb_true_iff in Hover.
      change (clock (set_serial_ready (tl_stream (serial_ready b)) b) 0)
        with (clock b 0).
      rewrite Hover.
      eexists. split; [reflexivity|]. split; [apply same_app_refl | reflexivity].
  - pose proof (Hnot O ltac:(lia)) as H0. apply orb_false_iff in H0.
    destruct H0 as [Es Ec]. apply negb_false_iff in Ec.
    cbv beta. rewrite Es. cbn [negb]. cbv iota.
    rewrite boot_bind_millis. cbv beta.
    change (clock (set_serial_ready (tl_stream (serial_ready b)) b) 0)
      with (clock b 0).
    rewrite Ec. unfold delay, digitalWrite.
    rewrite boot_bind_lift_call, boot_bind_digitalRead, boot_bind_lift_call.
    match goal with
    | |- context [setup_wait fuel t0 ?b1] =>
        destruct (IH fuel b1) as [b' [E [Hsame Hfw]]]
    end.
    + lia.
    + intros i Hi. apply (Hnot (S i)). lia.
    + exact Hover.
    + rewrite E. exists b'. split.
      * rewrite blinks_S. reflexivity.
      * split; [exact Hsame | exact Hfw].
Qed.

Lemma setup_app_run (n fuel : nat) (b : Board) :
  (n < fuel)%nat ->
  waits b n ->
  exists b',
    setup_app fuel b =
      Booted tt b'
        (setup_calls (g_ble_uart_is_connected (api (globals b))) n (pin_levels b)) /\
    api (globals b') = set_g_enable_ble true (api (globals b)) /\
    send_fail (globals b') = send_fail (globals b) /\
    payload (globals b') = payload (globals b) /\
    ble_rx (globals b') = ble_rx (globals b) /\
    g_custom_fw_ver b' = g_custom_fw_ver b.
Proof.
  intros Hlt [Hnot Hover]. unfold setup_app.
  rewrite boot_bind_call, boot_bind_millis. cbv beta.
  match goal with
  | |- context [boot_bind (setup_wait fuel ?t0) _ ?b1] =>
      destruct (@setup_wait_run t0 n fuel b1 Hlt) as [b2 [E [Hsame Hfw]]]
  end.
  { intros i Hi. exact (Hnot i Hi). }
  { exact Hover. }
  unfold boot_bind at 1. rewrite E. cbv beta iota.
  unfold digitalWrite. rewrite boot_bind_lift_call, boot_bind_call, boot_bind_MYLOG.
  unfold boot_modify. simpl boot_prefix.
  destruct Hsame as [Ha [Hf [Hp [Hrx _]]]]. simpl in Ha, Hf, Hp, Hrx, Hfw.
  eexists. split.
  { unfold setup_calls. simpl. rewrite Ha, app_nil_r. reflexivity. }
  pose proof (same_app_after_mylog (same_app_refl (irq (irq (globals b2)))))
    as [Ma [Mf [Mp [Mrx _]]]].
  set (s3 := after_mylog (irq (irq (globals b2)))) in *.
  change (set_g_enable_ble true (api s3) = set_g_enable_ble true (api (globals b)) /\
          send_fail s3 = send_fail (globals b) /\
          payload s3 = payload (globals b) /\
          ble_rx s3 = ble_rx (globals b) /\
          g_custom_fw_ver b2 = g_custom_fw_ver b).
  rewrite Ma, Mf, Mp, Mrx.
  change (api (irq (irq (globals b2)))) with (api (globals b2)).
  change (send_fail (irq (irq (globals b2)))) with (send_fail (globals b2)).
  change (payload (irq (irq (globals b2)))) with (payload (globals b2)).
  change (ble_rx (irq (irq (globals b2)))) with (ble_rx (globals b2)).
  rewrite Ha, Hf, Hp, Hrx, Hfw. repeat split.
Qed.

Lemma app_events_app (t1 t2 : list BootEvent) :
  app_events (t1 ++ t2) = app_events t1 ++ app_events t2.
Proof. unfold app_events. apply flat_map_app. Qed.

Lemma app_events_map (t : list Event) : app_events (map BApp t) = t.
Proof.
  induction t as [| e t IH]; [reflexivity|].
  unfold app_events in *. simpl. f_equal. exact IH.
Qed.

Lemma blinks_delay (levels : list Z) :
  delayed_ms (app_events (flat_map blink levels)) = 100 * Z.of_nat (List.length levels).
Proof.
  induction levels as [| l levels IH]; [reflexivity|].
  change (flat_map blink (l :: levels)) with (blink l ++ flat_map blink levels).
  rewrite app_events_app, delayed_ms_app, IH.
  change (delayed_ms (app_events (blink l))) with (100 + 0).
  change (List.length (l :: levels)) with (S (List.length levels)). lia.
Qed.

Lemma setup_calls_delay (connected : bool) (n : nat) (levels : nat -> Z) :
  delayed_ms (app_events (setup_calls connected n levels)) = 100 * Z.of_nat n.
Proof.
  unfold setup_calls, blinks.
  rewrite !app_events_app, !delayed_ms_app, blinks_delay, app_events_map.
  unfold take_stream. rewrite length_map, length_seq.
  destruct connected; simpl; lia.
Qed.

Lemma setup_calls_led (connected : bool) (n : nat) (levels : nat -> Z) :
  last_write LED_GREEN (setup_calls connected n levels) = Some false.
Proof.
  unfold setup_calls, last_write. rewrite !fold_left_app. simpl.
  rewrite Z.eqb_refl. destruct connected; reflexivity.
Qed.

(** X12: [setup_app] waits for the serial port by blinking.  When the
    test that ends the loop (the port is up, or 5000 ms have passed
    since the start) first holds in round n, the function returns after
    exactly n rounds, each one [delay(100)] and a write of the green LED
    to the opposite of the level just read; then it writes the LED low,
    sets the version 1.0.0 and logs one line.  It has spent 100 n ms in
    delays, the LED is left low, and the BLE link is enabled whatever the
    setting was; the other globals of the application are as before. *)
Theorem setup_app_blinks_until_ready (n fuel : nat) (b : Board) :
  (n < fuel)%nat ->
  waits b n ->
  exists b' t,
    setup_app fuel b = Booted tt b' t /\
    t = setup_calls (g_ble_uart_is_connected (api (globals b))) n (pin_levels b) /\
    delayed_ms (app_events t) = 100 * Z.of_nat n /\
    last_write LED_GREEN t = Some false /\
    g_enable_ble (api (globals b')) = true /\
    api (globals b') = set_g_enable_ble true (api (globals b)) /\
    send_fail (globals b') = send_fail (globals b) /\
    payload (globals b') = payload (globals b) /\
    ble_rx (globals b') = ble_rx (globals b) /\
    g_custom_fw_ver b' = g_custom_fw_ver b.
Proof.
  intros Hlt Hw.
  destruct (setup_app_run Hlt Hw) as [b' [E [Ha [Hf [Hp [Hrx Hfw]]]]]].
  exists b'. eexists. split; [exact E|]. split; [reflexivity|].
  split; [apply setup_calls_delay|]. split; [apply setup_calls_led|].
  split; [rewrite Ha; reflexivity|]. repeat (split; [assumption|]). exact Hfw.
Qed.

Lemma first_exit (P : nat -> bool) (m : nat) :
  P m = true ->
  exists n, (n <= m)%nat /\ P n = true /\ forall i, (i < n)%nat -> P i = false.
Proof.
  induction m as [m IH] using (well_founded_induction lt_wf).
  intros Hm.
  destruct (forallb (fun i => negb (P i)) (seq 0 m)) eqn:Hall.
  - exists m. split; [lia|]. split; [exact Hm|].
    intros i Hi. rewrite forallb_forall in Hall.
    apply negb_true_iff. apply Hall. apply in_seq. lia.
  - assert (Hex : exists i, In i (seq 0 m) /\ P i = true).
    { clear -Hall. induction (seq 0 m) as [| i l IHl]; [discriminate|].
      simpl in Hall. apply andb_false_iff in Hall. destruct Hall as [H | H].
      - exists i. split; [left; reflexivity | apply negb_false_iff; exact H].
      - destruct (IHl H) as [j [Hj Pj]]. exists j. split; [right|]; assumption. }
    destruct Hex as [i [Hi Pi]]. apply in_seq in Hi.
    destruct (IH i ltac:(lia) Pi) as [n [Hn [Pn Hbefore]]].
    exists n. split; [lia|]. split; assumption.
Qed.

Lemma paced_clock (rounds : nat) (b : Board) :
  paced rounds b ->
  forall i, (i <= rounds)%nat -> clock b 1%nat + 100 * Z.of_nat i <= clock b (S i).
Proof.
  intros [_ [_ [Hstep _]]] i. induction i as [| i IH]; intros Hi; [lia|].
  specialize (IH ltac:(lia)). specialize (Hstep i ltac:(lia)). lia.
Qed.

(** X13: [setup_app] does not wait for ever.  On a board whose clock
    advances by 100 ms or more with every [delay(100)] and does not wrap
    during the wait, the loop ends within 50 rounds, whether the serial
    port comes up or not: the function returns, with 5000 ms or less
    spent in delays, and the BLE link is enabled. *)
Theorem setup_app_gives_up_after_5s {ACO : ArduinoCoreOk} (fuel : nat) (b : Board) :
  (50 < fuel)%nat ->
  paced 50 b ->
  exists n b',
    (n <= 50)%nat /\
    waits b n /\
    setup_app fuel b =
      Booted tt b'
        (setup_calls (g_ble_uart_is_connected (api (globals b))) n (pin_levels b)) /\
    delayed_ms
      (app_events
         (setup_calls (g_ble_uart_is_connected (api (globals b))) n (pin_levels b)))
      <= 5000 /\
    g_enable_ble (api (globals b')) = true.
Proof.
  intros Hfuel Hpaced.
  assert (Hover : wait_over b 50 = true).
  { pose proof (paced_clock Hpaced (i:=50) ltac:(lia)) as Hc.
    destruct Hpaced as [H0 [H1 [_ Hwrap]]].
    unfold wait_over. apply orb_true_iff. right. apply negb_true_iff.
    rewrite millis_since_elapsed by lia. apply Z.ltb_ge. lia. }
  destruct (first_exit (wait_over b) 50 Hover) as [n [Hn [Pn Hbefore]]].
  assert (Hw : waits b n) by (split; assumption).
  destruct (@setup_app_run n fuel b ltac:(lia) Hw) as [b' [E [Ha _]]].
  exists n, b'. split; [exact Hn|]. split; [exact Hw|]. split; [exact E|].
  split; [rewrite setup_calls_delay; lia | rewrite Ha; reflexivity].
Qed.
End StartUpRuns.

(** ** The sensor power pin between two wake-ups *)

Section PowerPin.
Context {FA : FloatArith} {API : WisBlockApi} {OK : TaskEventsOk} {AC : ArduinoCore}.

(** Every handled tick ends with the write of WB_IO2 low. *)
Lemma tick_ends_low (s : State) :
  exists s' t,
    app_event_handler (timer_fired s) = Returned tt s' (t ++ [EDigitalWrite WB_IO2 false]).
Proof.
  rewrite (app_event_handler_set (timer_fired_sets s)).
  destruct (status_event_run (timer_fired s)) as [s0 [s1 [_ [_ [_ [_ [_ [_ E]]]]]]]].
  destruct (status_transmit_shape s1) as [s2 [t [E2 _]]].
  rewrite E, E2.
  match goal with |- context [prefix_trace ?t0 _] => exists s2, (t0 ++ t) end.
  unfold prefix_trace. rewrite app_assoc. reflexivity.
Qed.

Lemma status_events_end_low (n : nat) : forall s : State,
  exists s' t,
    status_events (S n) s = Returned tt s' (t ++ [EDigitalWrite WB_IO2 false]).
Proof.
  induction n as [| n IH]; intros s;
    destruct (tick_ends_low s) as [s1 [t1 E1]];
    change (status_events (S ?m) s)
      with (bind (modify timer_fired)
              (fun _ => bind app_event_handler (fun _ => status_events m)) s);
    rewrite bind_modify; unfold bind at 1; rewrite E1; cbv beta iota.
  - exists s1, t1. simpl. rewrite app_nil_r. reflexivity.
  - destruct (IH s1) as [s' [t E]]. rewrite E. simpl prefix_trace.
    exists s', ((t1 ++ [EDigitalWrite WB_IO2 false]) ++ t).
    rewrite <- !app_assoc. reflexivity.
Qed.

Lemma last_write_last (pin : Z) (high : bool) (t : list BootEvent) :
  last_write pin (t ++ [BApp (EDigitalWrite pin high)]) = Some high.
Proof.
  unfold last_write. rewrite fold_left_app. simpl. rewrite Z.eqb_refl. reflexivity.
Qed.

Lemma init_app_run (b : Board) :
  exists b',
    init_app b =
      Booted true b' (init_calls (g_ble_uart_is_connected (api (globals b)))) /\
    g_custom_fw_ver b' = "WisBlock Low Power V1.0.0" /\
    same_app (globals b) (globals b').
Proof.
  unfold init_app, digitalWrite.
  rewrite boot_bind_MYLOG, boot_bind_call, boot_bind_lift_call, boot_bind_call,
    boot_bind_modify.
  eexists. split; [|split].
  - unfold boot_ret, init_calls. simpl. rewrite ?app_nil_r.
    destruct (g_ble_uart_is_connected (api (globals b))); reflexivity.
  - reflexivity.
  - simpl. apply same_app_after_mylog. apply same_app_refl.
Qed.

(** X14: the sensor power pin is low whenever the node is at rest.
    [init_app] returns true, having set WB_IO2 as an output, written it
    low and restarted the advertising for 30 s; the firmware name is
    then WisBlock Low Power V1.0.0.  After [init_app] and after any
    number of timer ticks handled since, the last write of WB_IO2 is the
    write of low. *)
Theorem io2_low_at_rest (n : nat) (b : Board) :
  exists b' t,
    init_then_status n b =
      Booted true b' (init_calls (g_ble_uart_is_connected (api (globals b))) ++ t) /\
    last_write WB_IO2
      (init_calls (g_ble_uart_is_connected (api (globals b))) ++ t) = Some false /\
    g_custom_fw_ver b' = "WisBlock Low Power V1.0.0".
Proof.
  destruct (init_app_run b) as [b1 [E1 [Hfw _]]].
  unfold init_then_status. unfold boot_bind at 1. rewrite E1. cbv beta iota.
  destruct n as [| n].
  - exists b1, []. split; [|split].
    + unfold boot_bind, lift, boot_ret. simpl. destruct b1; reflexivity.
    + rewrite app_nil_r. unfold init_calls, last_write. rewrite fold_left_app. simpl.
      rewrite Z.eqb_refl. reflexivity.
    + exact Hfw.
  - destruct (status_events_end_low n (globals b1)) as [s' [t E]].
    exists (set_globals s' b1), (map BApp t ++ [BApp (EDigitalWrite WB_IO2 false)]).
    split; [|split].
    + unfold boot_bind, lift, boot_ret. rewrite E. simpl.
      rewrite map_app, app_nil_r. reflexivity.
    + rewrite app_assoc. apply last_write_last.
    + exact Hfw.
Qed.
End PowerPin.

(** ** A received packet *)

Section DataReceived.
Context {FA : FloatArith} {API : WisBlockApi}.

Lemma lora_data_handler_at_data (s : State) :
  has LORA_JOIN_FIN (g_task_event_type s) = false ->
  bit_set LORA_DATA s ->
  lora_data_handler s = bind lora_data_event (fun _ => lora_tx_fin) s.
Proof.
  intros Hjoin Hset. unfold lora_data_handler, lora_join_fin.
  rewrite bind_assoc, bind_gets, Hjoin. simpl when. rewrite bind_ret.
  apply bind_at. unfold lora_data. rewrite bind_gets.
  unfold bit_set in Hset. rewrite Hset. reflexivity.
Qed.

(** X15: a received packet is only logged.  With the data bit set, no
    join result pending and a packet of 87 to 255 bytes (where the dump
    stays inside its buffer), [lora_data_handler] logs three lines, the
    notice, the signal readings [g_last_rssi] and [g_last_snr], and the
    text of the dump, and makes no other call: the packet is not parsed,
    answered or passed on.  The failure counter, the payload and the API
    globals are as before, and the handler goes on to its tx-finished
    test. *)
Theorem data_received_is_only_logged (s : State) :
  has LORA_JOIN_FIN (g_task_event_type s) = false ->
  bit_set LORA_DATA s ->
  87 <= g_rx_data_len (api s) <= 255 ->
  exists s1 t text,
    lora_data_handler s = prefix_trace t (lora_tx_fin s1) /\
    hex_dump (g_rx_data_len (api s)) (g_rx_lora_data (api s)) = Some text /\
    t = mylog_events (g_ble_uart_is_connected (api s)) "APP"
          "Received package over LoRa" []
        ++ mylog_events (g_ble_uart_is_connected (api s)) "APP" "RSSI %d SNR %d"
             [ArgInt (g_last_rssi (api s)); ArgInt (g_last_snr (api s))]
        ++ mylog_events (g_ble_uart_is_connected (api s)) "APP" "%s" [ArgChars text] /\
    forallb is_log t = true /\
    send_fail s1 = send_fail s /\ payload s1 = payload s /\ api s1 = api s.
Proof.
  intros Hjoin Hset Hlen.
  destruct (lora_data_event_run s) as [s1 [E [Hf [Hp Ha]]]].
  destruct (hex_dump_defined (g_rx_lora_data (api s)) Hlen) as [text [Ed _]].
  rewrite Ed in E. simpl dump_arg in E.
  exists s1. eexists. exists text.
  split; [rewrite (lora_data_handler_at_data Hjoin Hset); unfold bind at 1;
          rewrite E; reflexivity|].
  split; [exact Ed|]. split; [reflexivity|].
  split; [|repeat split; assumption].
  rewrite !forallb_app, !mylog_events_are_logs. reflexivity.
Qed.
End DataReceived.

(** ** More of the model on the reference platform *)

Section MoreOnPlatform.
#[local] Existing Instance exact_arith.
#[local] Existing Instance wisblock_api.
#[local] Existing Instance wisblock_ok.
#[local] Existing Instance arduino_core.

Lemma arduino_core_ok : @ArduinoCoreOk arduino_core.
Proof.
  constructor. intros now start H1 H2. simpl. apply Z.mod_small. lia.
Qed.
#[local] Existing Instance arduino_core_ok.

Lemma st_status_joined_voltage_fits : voltage_fits st_status_joined.
Proof. intros v. vm_compute. discriminate. Qed.

Lemma usb_after_two_waits : waits (demo_board usb_after_two) 2.
Proof.
  split; [|reflexivity].
  intros [| [| i]] Hi; [reflexivity | reflexivity | lia].
Qed.

Lemma demo_board_paced : paced 50 (demo_board usb_never).
Proof.
  split; [vm_compute; discriminate|]. split; [vm_compute; discriminate|].
  split; [|reflexivity].
  intros i _.
  change (20 + 100 * Z.of_nat (S i) + 100 <= 20 + 100 * Z.of_nat (S (S i))). lia.
Qed.



Lemma status_enqueues_once_when_joined_witness :
  bit_set STATUS st_status_joined /\
  lorawan_enable (g_lorawan_settings (api st_status_joined)) = true /\
  g_lpwan_has_joined (api st_status_joined) = true /\
  exists s' t0,
    app_event_handler st_status_joined =
      Returned tt s'
        (t0
         ++ [ESend_lora_packet (getBuffer (payload s')) (getSize (payload s')) 2
               LMH_SUCCESS]
         ++ [ELog "APP" "Packet enqueued" []; EDigitalWrite WB_IO2 false]) /\
    sent_of t0 = [].
Proof.
  assert (H1 : bit_set STATUS st_status_joined) by reflexivity.
  assert (H2 : lorawan_enable (g_lorawan_settings (api st_status_joined)) = true)
    by reflexivity.
  assert (H3 : g_lpwan_has_joined (api st_status_joined) = true) by reflexivity.
  split; [exact H1|]. split; [exact H2|]. split; [exact H3|].
  destruct (status_enqueues_once_when_joined H1 H2 H3) as [s' [t0 [E [Hs _]]]].
  exists s', t0. split; [exact E | exact Hs].
Defined.

Lemma status_brackets_io2_witness :
  bit_set STATUS st_status_p2p /\
  exists s' t_mid,
    app_event_handler st_status_p2p =
      Returned tt s'
        ([ELog "APP" "Timer wakeup" []; EDigitalWrite WB_IO2 true]
         ++ t_mid ++ [EDigitalWrite WB_IO2 false]) /\
    count is_digital_write t_mid = 0%nat.
Proof.
  assert (H1 : bit_set STATUS st_status_p2p) by reflexivity.
  split; [exact H1|].
  destruct (status_brackets_io2 H1) as [s' [t [E [_ [Hw _]]]]].
  exists s', t. split; [exact E | exact Hw].
Defined.

(** Three ticks: one record, thirty samples. *)
Lemma payload_does_not_accumulate_witness :
  voltage_fits st_status_joined /\
  exists s' t,
    status_events 3 st_status_joined = Returned tt s' t /\
    records (payload s') = [reading_of_cycle st_status_joined 2] /\
    List.length (samples_of t) = 30%nat.
Proof.
  split; [exact st_status_joined_voltage_fits|].
  destruct (payload_does_not_accumulate 2 st_status_joined_voltage_fits)
    as [s' [t [E [Hr [Hs _]]]]].
  exists s', t. split; [exact E|]. split; [exact Hr|].
  rewrite Hs. reflexivity.
Defined.

Lemma join_finished_is_only_logged_witness :
  bit_set LORA_JOIN_FIN st_join_ok /\
  exists s1 t,
    join_fin_event st_join_ok = Returned tt s1 t /\
    send_fail s1 = send_fail st_join_ok /\
    count is_lmh_call t = 2%nat.
Proof.
  assert (H1 : bit_set LORA_JOIN_FIN st_join_ok) by reflexivity.
  split; [exact H1|].
  destruct (join_finished_is_only_logged H1) as [s1 [t [E [_ [Hf [_ [_ [_ Hc]]]]]]]].
  exists s1, t. split; [exact E|]. split; [exact Hf | exact Hc].
Defined.


(** 100 bytes: a text of 44 characters, not of 300. *)
Lemma hex_dump_cut_short_witness :
  87 <= 100 <= 255 /\
  exists text : list Z,
    hex_dump 100 (repeat 171 100) = Some text /\
    Z.of_nat (List.length text) = 44.
Proof.
  assert (H1 : 87 <= 100 <= 255) by lia.
  split; [exact H1|].
  destruct (hex_dump_cut_short (repeat 171 100) H1) as [text [E [Hl _]]].
  exists text. split; [exact E | exact Hl].
Defined.


Lemma handler_idle_witness :
  (forall k, serves LoraHandler k = true ->
             has (mask k) (g_task_event_type st_status_joined) = false) /\
  run_handler LoraHandler 0 st_status_joined = Returned tt st_status_joined [].
Proof.
  assert (H1 : forall k, serves LoraHandler k = true ->
                         has (mask k) (g_task_event_type st_status_joined) = false).
  { intros [] H; try discriminate H; reflexivity. }
  split; [exact H1|].
  exact (handler_idle LoraHandler 0 st_status_joined H1).
Defined.

Lemma ble_bridge_pace_witness :
  g_enable_ble (api st_ble_enabled) = true /\
  bit_set BLE_DATA st_ble_enabled /\
  (List.length (ble_rx st_ble_enabled) < 4)%nat /\
  exists s' t,
    ble_data_handler 4 st_ble_enabled = Returned tt s' t /\
    delayed_ms t = 15.
Proof.
  assert (H1 : g_enable_ble (api st_ble_enabled) = true) by reflexivity.
  assert (H2 : bit_set BLE_DATA st_ble_enabled) by reflexivity.
  assert (H3 : (List.length (ble_rx st_ble_enabled) < 4)%nat) by (simpl; lia).
  split; [exact H1|]. split; [exact H2|]. split; [exact H3|].
  destruct (ble_bridge_pace H1 H2 H3) as [s' [t [E [_ [Hd _]]]]].
  exists s', t. split; [exact E | exact Hd].
Defined.

(** The port is up at the third test: two rounds, 200 ms. *)
Lemma setup_app_blinks_until_ready_witness :
  (2 < 3)%nat /\
  waits (demo_board usb_after_two) 2 /\
  g_enable_ble (api (globals (demo_board usb_after_two))) = false /\
  exists b' t,
    setup_app 3 (demo_board usb_after_two) = Booted tt b' t /\
    delayed_ms (app_events t) = 200 /\
    g_enable_ble (api (globals b')) = true.
Proof.
  assert (H1 : (2 < 3)%nat) by lia.
  split; [exact H1|]. split; [exact usb_after_two_waits|]. split; [reflexivity|].
  destruct (setup_app_blinks_until_ready H1 usb_after_two_waits)
    as [b' [t [E [_ [Hd [_ [He _]]]]]]].
  exists b', t. split; [exact E|]. split; [exact Hd | exact He].
Defined.

(** The port never comes up: the function returns all the same. *)
Lemma setup_app_gives_up_after_5s_witness :
  (50 < 60)%nat /\
  paced 50 (demo_board usb_never) /\
  exists n b' t,
    (n <= 50)%nat /\
    setup_app 60 (demo_board usb_never) = Booted tt b' t /\
    g_enable_ble (api (globals b')) = true.
Proof.
  assert (H1 : (50 < 60)%nat) by lia.
  split; [exact H1|]. split; [exact demo_board_paced|].
  destruct (setup_app_gives_up_after_5s H1 demo_board_paced)
    as [n [b' [Hn [_ [E [_ He]]]]]].
  exists n, b'. eexists. split; [exact Hn|]. split; [exact E | exact He].
Defined.

Lemma io2_low_at_rest_witness :
  exists b' t,
    init_then_status 2 (demo_board usb_never) =
      Booted true b' (init_calls false ++ t) /\
    last_write WB_IO2 (init_calls false ++ t) = Some false /\
    g_custom_fw_ver b' = "WisBlock Low Power V1.0.0".
Proof. exact (io2_low_at_rest 2 (demo_board usb_never)). Defined.

Lemma data_received_is_only_logged_witness :
  has LORA_JOIN_FIN (g_task_event_type st_data) = false /\
  bit_set LORA_DATA st_data /\
  87 <= g_rx_data_len (api st_data) <= 255 /\
  exists s1 t text,
    lora_data_handler st_data = prefix_trace t (lora_tx_fin s1) /\
    t = [ELog "APP" "Received package over LoRa" [];
         ELog "APP" "RSSI %d SNR %d" [ArgInt (-80); ArgInt 7];
         ELog "APP" "%s" [ArgChars text]] /\
    List.length text = 44%nat /\
    send_fail s1 = send_fail st_data.
Proof.
  assert (H1 : has LORA_JOIN_FIN (g_task_event_type st_data) = false) by reflexivity.
  assert (H2 : bit_set LORA_DATA st_data) by reflexivity.
  assert (H3 : 87 <= g_rx_data_len (api st_data) <= 255) by (simpl; lia).
  split; [exact H1|]. split; [exact H2|]. split; [exact H3|].
  destruct (data_received_is_only_logged H1 H2 H3)
    as [s1 [t [text [E [Ed [Ht [_ [Hf _]]]]]]]].
  exists s1, t, text. split; [exact E|]. split; [exact Ht|].
  split; [|exact Hf].
  assert (Hd : option_map (@List.length Z)
                 (hex_dump (g_rx_data_len (api st_data)) (g_rx_lora_data (api st_data)))
               = Some 44%nat) by (vm_compute; reflexivity).
  rewrite Ed in Hd. injection Hd as Hd. exact Hd.
Defined.
End MoreOnPlatform.
